(** * analyze_stocks.py: ingestion and watchlist aggregation

    A shallow embedding of [src/analyze_stocks.py] and the properties of
    its readers, its watchlist grouper, its cross-reference step and its
    summaries.

    Python text is a sequence of Unicode code points, so [str] is a list
    of code points.  A [dict] is iterated in insertion order by the
    program, so dictionaries are association lists kept in that order.
    The [float64] cells of a frame are Rocq's binary64 floats. *)

From Stdlib Require Import Strings.String Strings.Ascii.
From Stdlib Require Import List NArith ZArith Bool Arith Lia Floats.
From Stdlib Require Import Permutation Sorted.
From Stdlib Require Uint63.
Import ListNotations.

(* ================================================================= *)
(** ** Python strings *)

Module Str.

Definition char := N.
Definition str := list char.

Fixpoint eqb (a b : str) : bool :=
  match a, b with
  | [], [] => true
  | x :: a', y :: b' => N.eqb x y && eqb a' b'
  | _, _ => false
  end.

Definition in_ranges (tbl : list (N * N)) (c : char) : bool :=
  existsb (fun r => N.leb (fst r) c && N.leb c (snd r)) tbl.

(** [str.isspace] for one character; also the class [\s] of [re] on
    text patterns. *)
Definition space_table : list (N * N) :=
  [ (0x9, 0xD); (0x1C, 0x20); (0x85, 0x85); (0xA0, 0xA0);
    (0x1680, 0x1680); (0x2000, 0x200A); (0x2028, 0x2029);
    (0x202F, 0x202F); (0x205F, 0x205F); (0x3000, 0x3000) ]%N.

Definition isspace (c : char) : bool := in_ranges space_table c.

(** [str.isdigit] for one character: the code points whose numeric type
    is Decimal or Digit (Unicode 14.0, the table of CPython 3.11). *)
Definition digit_table : list (N * N) :=
  [ (48, 57); (178, 179); (185, 185); (1632, 1641); (1776, 1785);
    (1984, 1993); (2406, 2415); (2534, 2543); (2662, 2671); (2790, 2799);
    (2918, 2927); (3046, 3055); (3174, 3183); (3302, 3311); (3430, 3439);
    (3558, 3567); (3664, 3673); (3792, 3801); (3872, 3881); (4160, 4169);
    (4240, 4249); (4969, 4977); (6112, 6121); (6160, 6169); (6470, 6479);
    (6608, 6618); (6784, 6793); (6800, 6809); (6992, 7001); (7088, 7097);
    (7232, 7241); (7248, 7257); (8304, 8304); (8308, 8313); (8320, 8329);
    (9312, 9320); (9332, 9340); (9352, 9360); (9450, 9450); (9461, 9469);
    (9471, 9471); (10102, 10110); (10112, 10120); (10122, 10130);
    (42528, 42537); (43216, 43225); (43264, 43273); (43472, 43481);
    (43504, 43513); (43600, 43609); (44016, 44025); (65296, 65305);
    (66720, 66729); (68160, 68163); (68912, 68921); (69216, 69224);
    (69714, 69722); (69734, 69743); (69872, 69881); (69942, 69951);
    (70096, 70105); (70384, 70393); (70736, 70745); (70864, 70873);
    (71248, 71257); (71360, 71369); (71472, 71481); (71904, 71913);
    (72016, 72025); (72784, 72793); (73040, 73049); (73120, 73129);
    (92768, 92777); (92864, 92873); (93008, 93017); (120782, 120831);
    (123200, 123209); (123632, 123641); (125264, 125273);
    (127232, 127242); (130032, 130041) ]%N.

Definition isdigit (c : char) : bool := in_ranges digit_table c.

Fixpoint dropwhile (p : char -> bool) (s : str) : str :=
  match s with
  | [] => []
  | c :: t => if p c then dropwhile p t else s
  end.

Definition lstrip (s : str) : str := dropwhile isspace s.
Definition rstrip (s : str) : str := rev (dropwhile isspace (rev s)).

(** [s.strip()] *)
Definition strip (s : str) : str := rstrip (lstrip s).

(** [s.startswith(p)] *)
Fixpoint startswith (p s : str) : bool :=
  match p, s with
  | [], _ => true
  | x :: p', y :: s' => N.eqb x y && startswith p' s'
  | _ :: _, [] => false
  end.

(** [sub in s] *)
Fixpoint contains (sub s : str) : bool :=
  startswith sub s ||
  match s with
  | [] => false
  | _ :: t => contains sub t
  end.

(** An ASCII literal as a [str]. *)
Definition lit (s : String.string) : str :=
  map Ascii.N_of_ascii (String.list_ascii_of_string s).

Arguments lit s%_string.

End Str.

Import Str.

(** The literals of the program. *)
Definition s_code : str := [0x4EE3; 0x7801]%N.                 (* 代码 *)
Definition s_name : str := [0x540D; 0x79F0]%N.                 (* 名称 *)
Definition s_time : str := [0x65F6; 0x95F4]%N.                 (* 时间 *)
Definition s_unclassified : str := [0x672A; 0x5206; 0x7C7B]%N. (* 未分类 *)
Definition s_dup : str := [0x91CD; 0x590D]%N.                  (* 重复 *)
Definition s_source : str := [0x6570; 0x636E; 0x6765; 0x6E90]%N. (* 数据来源 *)
Definition s_99 : str := [57; 57]%N.                           (* 99 *)
Definition s_hash : str := [35]%N.                             (* # *)
Definition s_nan : str := [110; 97; 110]%N.                    (* nan *)

(* ================================================================= *)
(** ** Watchlist rows and [analyze_stock_list] *)

(** One row of the frame handed to [analyze_stock_list], as the program
    reads it: [idx] is the row's index label, [code] the 代码 cell under
    [astype(str)] (the column is text after [read_stock_list]), [name]
    is [str(row.get('名称', ''))], [price] and [change] the 现价 and 涨幅%
    cells as [pd.to_numeric(errors='coerce')] reads them, NaN standing
    for a missing or non-numeric cell. *)
Record Row := mkRow {
  idx : nat;
  code : str;
  name : str;
  price : float;
  change : float
}.

(** [groups]: label -> rows, in the order the labels were inserted. *)
Definition groups_t := list (str * list Row).

Fixpoint has_key {V} (k : str) (d : list (str * V)) : bool :=
  match d with
  | [] => false
  | (k', _) :: t => Str.eqb k k' || has_key k t
  end.

Fixpoint lookup {V} (k : str) (d : list (str * V)) : option V :=
  match d with
  | [] => None
  | (k', v) :: t => if Str.eqb k k' then Some v else lookup k t
  end.

(** [if k not in groups: groups[k] = []] *)
Definition ensure_group (k : str) (groups : groups_t) : groups_t :=
  if has_key k groups then groups else groups ++ [(k, [])].

(** [d[k].append(x)] for a key that is present. *)
Fixpoint append_at {V} (k : str) (x : V) (d : list (str * list V))
  : list (str * list V) :=
  match d with
  | [] => []
  | (k', xs) :: t =>
      if Str.eqb k k' then (k', xs ++ [x]) :: t
      else (k', xs) :: append_at k x t
  end.

(** [not code or not code[0].isdigit()] *)
Definition is_marker_code (c : str) : bool :=
  match c with
  | [] => true
  | ch :: _ => negb (isdigit ch)
  end.

(** [group_name = code if code else name] *)
Definition group_name_of (c n : str) : str :=
  match c with
  | [] => n
  | _ :: _ => c
  end.

Definition nonempty (s : str) : bool :=
  match s with [] => false | _ :: _ => true end.

(** The test of line 244. *)
Definition accepted_label (g : str) : bool :=
  nonempty g && negb (contains s_dup g) && negb (contains s_source g).

Record GroupState := mkState {
  st_groups : groups_t;
  st_current : str
}.

(** One iteration of the loop of lines 236-252. *)
Definition group_step (st : GroupState) (row : Row) : GroupState :=
  let c := strip (code row) in
  let n := strip (name row) in
  if is_marker_code c then
    let group_name := group_name_of c n in
    if accepted_label group_name then
      mkState (ensure_group group_name (st_groups st)) group_name
    else st
  else
    let groups := ensure_group (st_current st) (st_groups st) in
    mkState (append_at (st_current st) row groups) (st_current st).

Definition init_state : GroupState := mkState [] s_unclassified.

Definition group_rows (df : list Row) : GroupState :=
  fold_left group_step df init_state.

(** [group_dfs]: the groups that have rows. *)
Definition group_dfs_of (groups : groups_t) : groups_t :=
  filter (fun g => match snd g with [] => false | _ :: _ => true end) groups.

(** [pd.concat(d.values())]: the rows of the groups, in dictionary
    order. *)
Definition members (d : groups_t) : list Row := concat (map snd d).

(** [pd.concat(group_dfs.values()) if group_dfs else df] *)
Definition all_stocks_of (group_dfs : groups_t) (df : list Row) : list Row :=
  match group_dfs with
  | [] => df
  | _ :: _ => members group_dfs
  end.

(** [x['代码'].astype(str).str.startswith('99')] *)
Definition is_index (r : Row) : bool := startswith s_99 (code r).
Definition not_index (r : Row) : bool := negb (is_index r).

(** Lines 265-268. *)
Definition all_codes_of (group_dfs : groups_t) : list (str * str) :=
  flat_map (fun g => map (fun r => (code r, fst g)) (filter not_index (snd g)))
           group_dfs.

(** [Counter(xs)]: counts, keyed in first-seen order. *)
Fixpoint counter_add (c : str) (cnt : list (str * nat)) : list (str * nat) :=
  match cnt with
  | [] => [(c, 1)]
  | (k, n) :: t =>
      if Str.eqb c k then (k, S n) :: t else (k, n) :: counter_add c t
  end.

Definition Counter (xs : list str) : list (str * nat) :=
  fold_left (fun cnt c => counter_add c cnt) xs [].

(** Lines 272-275. *)
Definition duplicates_of (all_codes : list (str * str))
  : list (str * list str) :=
  let code_counts := Counter (map fst all_codes) in
  let init :=
    map (fun kc => (fst kc, @nil str))
        (filter (fun kc => 1 <? snd kc) code_counts) in
  fold_left
    (fun d cg => if has_key (fst cg) d then append_at (fst cg) (snd cg) d else d)
    all_codes init.

(** [df.drop_duplicates(subset=['代码'])]: the first row of every code. *)
Fixpoint drop_dup_from (seen : list str) (l : list Row) : list Row :=
  match l with
  | [] => []
  | r :: t =>
      if existsb (Str.eqb (code r)) seen then drop_dup_from seen t
      else r :: drop_dup_from (code r :: seen) t
  end.

Definition drop_duplicates (l : list Row) : list Row := drop_dup_from [] l.

(** Order of [sort_values('涨幅%', ascending=False)]: larger first, NaN
    last. *)
Definition is_nan (x : float) : bool := negb (PrimFloat.eqb x x).

Definition before (a b : Row) : bool :=
  if is_nan (change b) then true
  else if is_nan (change a) then false
  else PrimFloat.leb (change b) (change a).

Fixpoint insert_sorted (r : Row) (l : list Row) : list Row :=
  match l with
  | [] => [r]
  | x :: t => if before r x then r :: l else x :: insert_sorted r t
  end.

Definition sort_values (l : list Row) : list Row :=
  fold_right insert_sorted [] l.

(** Lines 316-328: the listing printed for every group with stocks. *)
Definition listings_of (group_dfs : groups_t) : groups_t :=
  flat_map
    (fun g =>
       match filter not_index (snd g) with
       | [] => []
       | gdf_stocks => [(fst g, sort_values gdf_stocks)]
       end)
    group_dfs.

(** [df.tail(n)] *)
Definition tail_n {A} (n : nat) (l : list A) : list A :=
  skipn (length l - n) l.

(** What [analyze_stock_list] computes: the frames it returns
    ([stock_df], [index_df]) and the structures its report prints. *)
Record Analysis := mkAnalysis {
  groups : groups_t;
  index_df : list Row;
  duplicates : list (str * list str);
  stock_df : list Row;
  listings : groups_t;
  top5 : list Row;
  bottom5 : list Row
}.

(** [analyze_stock_list(df)]; [None] is the early return on an empty
    frame. *)
Definition analyze_stock_list (df : list Row) : option Analysis :=
  match df with
  | [] => None
  | _ :: _ =>
      let group_dfs := group_dfs_of (st_groups (group_rows df)) in
      let all_stocks := all_stocks_of group_dfs df in
      let stock_df := drop_duplicates (filter not_index all_stocks) in
      Some (mkAnalysis
              group_dfs
              (filter is_index all_stocks)
              (duplicates_of (all_codes_of group_dfs))
              stock_df
              (listings_of group_dfs)
              (firstn 5 stock_df)
              (rev (tail_n 5 stock_df)))
  end.

(* ================================================================= *)
(** ** Frames, files and the readers *)

(** A cell of a frame: a [str] object, or any other value (NaN, a
    number) carried with the text [str()] gives it. *)
Inductive cell :=
| Text (s : str)
| NonText (repr : str).

(** [x.astype(str)] on one cell. *)
Definition astype_str (c : cell) : str :=
  match c with
  | Text s => s
  | NonText s => s
  end.

Record DataFrame := mkFrame {
  columns : list str;
  rows : list (list cell)
}.

(** Outcome of a call into the runtime or pandas: a value, a
    [UnicodeDecodeError], or any other exception. *)
Inductive outcome (A : Type) :=
| Returned (a : A)
| DecodeError
| Failed.

Arguments Returned {A} a.
Arguments DecodeError {A}.
Arguments Failed {A}.

Inductive sep := Comma | Tab.
Inductive encoding := Gbk | Utf8 | Gb2312.

(** A file as the program observes it. *)
Record File := mkFile {
  f_exists : bool;                       (* file_path.exists() *)
  gbk_readline : outcome str;            (* open(.., encoding='gbk').readline() *)
  gbk_readlines : outcome (list str);    (* open(.., encoding='gbk').readlines() *)
  (* pd.read_csv(.., sep, encoding, skiprows, skipinitialspace) *)
  read_csv : sep -> encoding -> nat -> bool -> outcome DataFrame;
  read_excel : outcome DataFrame         (* pd.read_excel(..) *)
}.

(** The library calls a reader makes, in order. *)
Inductive event :=
| EvOpenGbk
| EvReadCsv (s : sep) (e : encoding) (skiprows : nat) (skipinitialspace : bool)
| EvReadExcel.

Record StockInfo := mkInfo {
  info_name : str;
  info_code : str
}.

(** *** The pattern of line 55

    [([一-龥]+)\s*[\(（]([0-9]+)[\)）]] under [re.search]. *)

Definition is_cjk (c : char) : bool := N.leb 0x4E00 c && N.leb c 0x9FA5.
Definition is_09 (c : char) : bool := N.leb 48 c && N.leb c 57.
Definition is_open (c : char) : bool := N.eqb c 0x28 || N.eqb c 0xFF08.
Definition is_close (c : char) : bool := N.eqb c 0x29 || N.eqb c 0xFF09.

(** The longest prefix in a class, and the rest: a greedy [+] or [*]. *)
Fixpoint span (p : char -> bool) (s : str) : str * str :=
  match s with
  | [] => ([], [])
  | c :: t =>
      if p c then let (a, b) := span p t in (c :: a, b) else ([], s)
  end.

(** A match that starts at the head of [s].  The classes that follow
    one another in the pattern are disjoint, so a repetition that gives
    a character back can never be followed by a match: the greedy spans
    are the only candidates the backtracking search has. *)
Definition match_here (s : str) : option StockInfo :=
  match span is_cjk s with
  | ([], _) => None
  | (nm, r1) =>
      match snd (span isspace r1) with
      | op :: r3 =>
          if is_open op then
            match span is_09 r3 with
            | (d :: ds, cl :: _) =>
                if is_close cl then Some (mkInfo nm (d :: ds)) else None
            | _ => None
            end
          else None
      | [] => None
      end
  end.

(** [re.search]: the leftmost start that matches. *)
Fixpoint re_search (s : str) : option StockInfo :=
  match match_here s with
  | Some m => Some m
  | None =>
      match s with
      | [] => None
      | _ :: t => re_search t
      end
  end.

(** Lines 60-64: the first line that contains 时间, else 0. *)
Fixpoint header_index_from (i : nat) (lines : list str) : nat :=
  match lines with
  | [] => 0
  | l :: t => if contains s_time l then i else header_index_from (S i) t
  end.

Definition header_index (lines : list str) : nat := header_index_from 0 lines.

(** [df.columns = [str(c).strip() for c in df.columns]] *)
Definition strip_columns (df : DataFrame) : DataFrame :=
  mkFrame (map strip (columns df)) (rows df).

Definition s_csv : str := [46; 99; 115; 118]%N.        (* .csv *)
Definition s_txt : str := [46; 116; 120; 116]%N.       (* .txt *)
Definition s_xls : str := [46; 120; 108; 115]%N.       (* .xls *)
Definition s_xlsx : str := [46; 120; 108; 115; 120]%N. (* .xlsx *)

(** What [read_tdx_export] returns, with the calls it made. *)
Definition Export := ((option DataFrame * option StockInfo) * list event)%type.

Definition nothing : option DataFrame * option StockInfo := (None, None).

(** Lines 29-35 and 38-44: the encodings in turn. *)
Fixpoint try_encodings (f : File) (sp : sep) (encs : list encoding) : Export :=
  match encs with
  | [] => (nothing, [])
  | enc :: rest =>
      match read_csv f sp enc 0 false with
      | Returned df => ((Some df, None), [EvReadCsv sp enc 0 false])
      | DecodeError =>
          let (r, tr) := try_encodings f sp rest in
          (r, EvReadCsv sp enc 0 false :: tr)
      | Failed => (nothing, [EvReadCsv sp enc 0 false])
      end
  end.

(** Lines 49-76, the tab-delimited reading of an .xls file: the frame
    when it succeeds, [stock_info] as the block leaves it, the calls. *)
Definition read_xls_text (f : File)
  : option DataFrame * option StockInfo * list event :=
  match gbk_readlines f with
  | Returned lines =>
      match lines with
      | [] => (None, None, [EvOpenGbk])     (* lines[0] raises *)
      | l0 :: _ =>
          let first_line := strip l0 in
          let stock_info := re_search first_line in
          let header_idx := header_index lines in
          let ev := EvReadCsv Tab Gbk header_idx true in
          match read_csv f Tab Gbk header_idx true with
          | Returned df => (Some (strip_columns df), stock_info, [EvOpenGbk; ev])
          | _ => (None, stock_info, [EvOpenGbk; ev])
          end
      end
  | _ => (None, None, [EvOpenGbk])
  end.

(** [read_tdx_export(file_path)]; [suffix] is [file_path.suffix.lower()]. *)
Definition read_tdx_export (suffix : str) (f : File) : Export :=
  if negb (f_exists f) then (nothing, [])
  else if Str.eqb suffix s_csv then try_encodings f Comma [Gbk; Utf8; Gb2312]
  else if Str.eqb suffix s_txt then try_encodings f Tab [Gbk; Utf8; Gb2312]
  else if Str.eqb suffix s_xls || Str.eqb suffix s_xlsx then
    match read_xls_text f with
    | (Some df, stock_info, tr) => ((Some df, stock_info), tr)
    | (None, stock_info, tr) =>
        match read_excel f with
        | Returned df => ((Some df, stock_info), tr ++ [EvReadExcel])
        | _ => (nothing, tr ++ [EvReadExcel])
        end
    end
  else (nothing, []).

(** [is_stock_list(file_path)] *)
Definition is_stock_list (f : File) : bool :=
  match gbk_readline f with
  | Returned first_line => contains s_code first_line && contains s_name first_line
  | _ => false
  end.

(** The branch the main loop takes for a file (lines 409-418). *)
Inductive route := WatchlistPath | PriceSeriesPath.

Definition route_of (f : File) : route :=
  if is_stock_list f then WatchlistPath else PriceSeriesPath.

(** *** [read_stock_list] *)

Definition c_eq : char := 61%N.      (* = *)
Definition c_quote : char := 34%N.   (* double quote *)

(** [s.replace(p, '')] for the two characters [p] of an equals sign
    and a double quote: every occurrence, left to right. *)
Fixpoint remove_eq_quote (s : str) : str :=
  match s with
  | [] => []
  | x :: t =>
      match t with
      | y :: t' =>
          if N.eqb x c_eq && N.eqb y c_quote then remove_eq_quote t'
          else x :: remove_eq_quote t
      | [] => [x]
      end
  end.

(** [s.replace(q, '')] for the double quote [q]. *)
Definition remove_quote (s : str) : str :=
  filter (fun c => negb (N.eqb c c_quote)) s.

(** Line 212 on one value that [astype(str)] turns into text: the two
    replacements on that text. *)
Definition clean_code (c : cell) : cell :=
  Text (remove_quote (remove_eq_quote (astype_str c))).

(** What [astype(str)] does to a missing value depends on the pandas
    that runs the program: before pandas 3 it becomes the text nan, from
    pandas 3 on it stays missing, and the replacements skip it. *)
Inductive pandas := Pandas2 | Pandas3.

(** A missing value (NaN): the value that is not text and whose
    [str()] is nan. *)
Definition is_missing (c : cell) : bool :=
  match c with
  | Text _ => false
  | NonText repr => Str.eqb repr s_nan
  end.

(** Line 212 on one cell, under either pandas. *)
Definition clean_code_cell (v : pandas) (c : cell) : cell :=
  match v with
  | Pandas2 => clean_code c
  | Pandas3 => if is_missing c then c else clean_code c
  end.

Fixpoint update_nth {A} (i : nat) (g : A -> A) (l : list A) : list A :=
  match l, i with
  | [], _ => []
  | x :: t, O => g x :: t
  | x :: t, S j => x :: update_nth j g t
  end.

Fixpoint index_of (k : str) (l : list str) : option nat :=
  match l with
  | [] => None
  | x :: t => if Str.eqb k x then Some 0 else option_map S (index_of k t)
  end.

Definition count_label (k : str) (l : list str) : nat :=
  length (filter (Str.eqb k) l).

(** Line 215 on one row: [~ first.astype(str).startswith('#')]. *)
Definition keep_row (r : list cell) : bool :=
  match r with
  | [] => true
  | c :: _ => negb (startswith s_hash (astype_str c))
  end.

(** Line 212 on one row: the cell under the first 代码 label, if there
    is one. *)
Definition clean_code_in_row (v : pandas) (cols : list str) (r : list cell)
  : list cell :=
  match index_of s_code cols with
  | None => r
  | Some i => update_nth i (clean_code_cell v) r
  end.

(** Lines 211-212.  With no 代码 label the frame is left alone; with
    two such labels [df['代码']] is a frame, which has no [.str], and
    the function raises. *)
Definition clean_code_column (v : pandas) (cols : list str)
           (rs : list (list cell)) : option (list (list cell)) :=
  if 1 <? count_label s_code cols then None
  else Some (map (clean_code_in_row v cols) rs).

(** [read_stock_list(file_path)] run on pandas [v]; [None] is the
    [except] branch. *)
Definition read_stock_list (v : pandas) (f : File) : option DataFrame :=
  match gbk_readlines f with
  | Returned _ =>
      match read_csv f Tab Gbk 0 true with
      | Returned df =>
          let cols := map strip (columns df) in
          match clean_code_column v cols (rows df), cols with
          | Some rs, _ :: _ => Some (mkFrame cols (filter keep_row rs))
          | _, _ => None                (* iloc[:, 0] needs a column *)
          end
      | _ => None
      end
  | _ => None
  end.

(* ================================================================= *)
(** ** [analyze_kline]: the change over the period *)

Open Scope float_scope.

(** Lines 155-157 on a float64 series: [close] is what
    [pd.to_numeric(df['close'], errors='coerce')] gives for a column
    that is not all integers; the value is [Some] when the 区间涨跌 line
    is printed. *)
Definition total_change (close : list float) : option float :=
  if (1 <? length close)%nat then
    Some ((last close nan - nth 0 close nan) / nth 0 close nan * 100)
  else None.

Close Scope float_scope.

(* ================================================================= *)
(** ** Sample inputs *)

Definition blank_row (i : nat) (c n : str) : Row := mkRow i c n nan nan.

(** A footer row of the terminal: 数据来源 followed by a colon. *)
Definition noise_row : Row := blank_row 7 (s_source ++ lit ":") [].

(** A watchlist export: its first line is the header 代码 TAB 名称. *)
Definition watchlist_file : File :=
  mkFile true
         (Returned (s_code ++ [9%N] ++ s_name))
         (Returned [])
         (fun _ _ _ _ => Failed)
         Failed.

(** A file whose bytes are not GBK text. *)
Definition binary_file : File :=
  mkFile true DecodeError DecodeError (fun _ _ _ _ => DecodeError)
         (Returned (mkFrame [lit "close"] [[NonText (lit "10.5")]])).

(** 平安银行 (000001), the identity line of a price-series export. *)
Definition pingan_line : str :=
  [0x5E73; 0x5B89; 0x94F6; 0x884C]%N ++ lit " (000001)".

(** The frame [read_csv] gives for the two sample exports below. *)
Definition kline_frame : DataFrame :=
  mkFrame [s_time; lit " close "]
          [[NonText (lit "2024"); NonText (lit "10.5")]].

(** An .xls export that is tab-delimited text: the identity line, then
    the header with 时间. *)
Definition text_xls_file : File :=
  mkFile true
         (Returned pingan_line)
         (Returned [pingan_line; s_time ++ lit " close"; lit "2024 10.5"])
         (fun sp enc skip _ =>
            match sp, enc, skip with
            | Tab, Gbk, 1 => Returned kline_frame
            | _, _, _ => Failed
            end)
         Failed.

(* ================================================================= *)
(** ** Identity-line patterns, stated declaratively *)

(** The specification's wording of the identity line: a name,
    whitespace, and a number in ASCII or fullwidth parentheses. *)
Definition spec_identity_line (line : str) : Prop :=
  exists nm ws op ds cl,
    line = nm ++ ws ++ [op] ++ ds ++ [cl] /\
    nm <> [] /\
    ws <> [] /\ forallb isspace ws = true /\
    is_open op = true /\
    ds <> [] /\ forallb is_09 ds = true /\
    is_close cl = true.

(** The language of the pattern of line 55, anywhere in the line: one
    or more ideographs of U+4E00..U+9FA5, whitespace or none, an opening
    parenthesis, one or more of the digits 0-9, a closing parenthesis. *)
Definition cjk_paren_pattern (line : str) : Prop :=
  exists pre nm ws op ds cl post,
    line = pre ++ nm ++ ws ++ [op] ++ ds ++ [cl] ++ post /\
    nm <> [] /\ forallb is_cjk nm = true /\
    forallb isspace ws = true /\
    is_open op = true /\
    ds <> [] /\ forallb is_09 ds = true /\
    is_close cl = true.

(** 万科A (000002): a listed name that ends in a Latin letter. *)
Definition vanke_line : str := [0x4E07; 0x79D1]%N ++ lit "A (000002)".

Definition vanke_xls_file : File :=
  mkFile true
         (Returned vanke_line)
         (Returned [vanke_line; s_time ++ lit " close"; lit "2024 10.5"])
         (fun sp enc skip _ =>
            match sp, enc, skip with
            | Tab, Gbk, 1 => Returned kline_frame
            | _, _, _ => Failed
            end)
         Failed.

(** The grouped watchlist of the specification's test section: marker
    GroupA, 000001 and 000002, marker GroupB, 000001 again. *)
Definition two_group_df : list Row :=
  [ blank_row 0 (lit "GroupA") [];
    mkRow 1 (lit "000001") (lit "AAA") 10 5;
    mkRow 2 (lit "000002") (lit "BBB") 11 (-3);
    blank_row 3 (lit "GroupB") [];
    mkRow 4 (lit "000001") (lit "AAA") 12 7 ]%float.

(** A watchlist with a market index among the stocks of a group. *)
Definition index_row : Row := mkRow 1 (lit "990001") (lit "IDX") 3000 1%float.

Definition with_index_df : list Row :=
  [ blank_row 0 (lit "GroupA") [];
    index_row;
    mkRow 2 (lit "000002") (lit "BBB") 11 (-3)%float ].

Definition no_analysis : Analysis := mkAnalysis [] [] [] [] [] [] [].

(** What [analyze_stock_list] computes on the samples. *)
Definition two_group_analysis : Analysis :=
  match analyze_stock_list two_group_df with
  | Some a => a
  | None => no_analysis
  end.

Definition with_index_analysis : Analysis :=
  match analyze_stock_list with_index_df with
  | Some a => a
  | None => no_analysis
  end.

(** One group in which 000001 is listed twice. *)
Definition repeated_in_group_df : list Row :=
  [ blank_row 0 (lit "GroupA") [];
    mkRow 1 (lit "000001") (lit "AAA") 10 5;
    mkRow 2 (lit "000001") (lit "AAA") 10 5 ]%float.

(** Six stocks whose 涨幅% rises down the file, from 1 to 6. *)
Definition rising_df : list Row :=
  [ blank_row 0 (lit "GroupA") [];
    mkRow 1 (lit "000001") (lit "A1") 10 1;
    mkRow 2 (lit "000002") (lit "A2") 10 2;
    mkRow 3 (lit "000003") (lit "A3") 10 3;
    mkRow 4 (lit "000004") (lit "A4") 10 4;
    mkRow 5 (lit "000005") (lit "A5") 10 5;
    mkRow 6 (lit "000006") (lit "A6") 10 6 ]%float.

(** The specification's wording of line 212: the text without its
    double quotes and without the equals signs that stand right before
    one. *)
Fixpoint unquoted (s : str) : str :=
  match s with
  | [] => []
  | x :: t =>
      if N.eqb x c_quote then unquoted t
      else if N.eqb x c_eq && match t with
                              | y :: _ => N.eqb y c_quote
                              | [] => false
                              end
           then unquoted t
           else x :: unquoted t
  end.

(** A code as the terminal writes it: an equals sign and the digits in
    double quotes. *)
Definition quoted (s : str) : str := [c_eq; c_quote] ++ s ++ [c_quote].

(** A watchlist export with the header 代码, 名称 (padded) and two rows,
    the second a comment. *)
Definition watchlist_frame : DataFrame :=
  mkFrame [s_code; lit " " ++ s_name]
          [ [Text (quoted (lit "000001")); Text (lit "AAA")];
            [Text (lit "#note"); NonText s_nan] ].

Definition watchlist_export : File :=
  mkFile true
         (Returned (s_code ++ [9%N] ++ s_name))
         (Returned [s_code ++ [9%N] ++ s_name])
         (fun sp enc skip skipinitialspace =>
            match sp, enc, skip, skipinitialspace with
            | Tab, Gbk, 0, true => Returned watchlist_frame
            | _, _, _, _ => Failed
            end)
         Failed.

(* ================================================================= *)
(** ** [clean_column_names] *)

Definition s_open_cn : str := [0x5F00; 0x76D8]%N.            (* 开盘 *)
Definition s_high_cn : str := [0x6700; 0x9AD8]%N.            (* 最高 *)
Definition s_low_cn : str := [0x6700; 0x4F4E]%N.             (* 最低 *)
Definition s_close_cn : str := [0x6536; 0x76D8]%N.           (* 收盘 *)
Definition s_volume_cn : str := [0x6210; 0x4EA4; 0x91CF]%N.  (* 成交量 *)

(** Lines 98-105. *)
Definition col_mapping : list (str * str) :=
  [ (s_time, lit "date");
    (s_open_cn, lit "open");
    (s_high_cn, lit "high");
    (s_low_cn, lit "low");
    (s_close_cn, lit "close");
    (s_volume_cn, lit "volume") ].

(** Lines 109-113 on one label. *)
Definition clean_label (col : str) : str :=
  let col_str := strip col in
  match lookup col_str col_mapping with
  | Some canonical => canonical
  | None => col_str
  end.

(** [clean_column_names(df)] *)
Definition clean_column_names (df : DataFrame) : DataFrame :=
  mkFrame (map clean_label (columns df)) (rows df).

(** A price-series frame as the terminal labels it, with padding. *)
Definition padded_kline_frame : DataFrame :=
  mkFrame [lit " " ++ s_time; s_close_cn ++ lit " "; lit "MACD.DIF"]
          [[NonText (lit "2024"); NonText (lit "10.5"); NonText (lit "0.1")]].

(** A .csv file whose bytes are UTF-8 and not GBK. *)
Definition utf8_csv_file : File :=
  mkFile true DecodeError DecodeError
         (fun sp enc skip _ =>
            match sp, enc, skip with
            | Comma, Gbk, 0 => DecodeError
            | Comma, Utf8, 0 => Returned kline_frame
            | _, _, _ => Failed
            end)
         Failed.

(** An .xls file with the identity line whose table can be read
    neither as text nor as a spreadsheet. *)
Definition unreadable_xls_file : File :=
  mkFile true (Returned pingan_line) (Returned [pingan_line])
         (fun _ _ _ _ => Failed) Failed.

(** An .xls file with the identity line whose table only
    [read_excel] can read. *)
Definition excel_only_file : File :=
  mkFile true (Returned pingan_line) (Returned [pingan_line])
         (fun _ _ _ _ => Failed) (Returned kline_frame).

(* ================================================================= *)
(** ** Predicates for the grouper's invariants *)

(** Where a group label can come from: the initial 未分类, or a marker
    row of the frame whose label passed the test of line 244. *)
Definition label_origin (df : list Row) (k : str) : Prop :=
  accepted_label k = true /\
  (k = s_unclassified \/
   exists m, In m df /\ is_marker_code (strip (code m)) = true /\
             group_name_of (strip (code m)) (strip (name m)) = k).

(** A frame of marker rows only. *)
Definition markers_only_df : list Row :=
  [ blank_row 0 (lit "GroupA") [];
    blank_row 1 (lit "GroupB") [];
    blank_row 2 (lit "GroupA") [] ].

Definition markers_only_analysis : Analysis :=
  match analyze_stock_list markers_only_df with
  | Some a => a
  | None => no_analysis
  end.

Definition repeated_analysis : Analysis :=
  match analyze_stock_list repeated_in_group_df with
  | Some a => a
  | None => no_analysis
  end.

(** A market index listed under two groups. *)
Definition index_twice_df : list Row :=
  [ blank_row 0 (lit "GroupA") [];
    mkRow 1 (lit "990001") (lit "IDX") 3000 1;
    blank_row 2 (lit "GroupB") [];
    mkRow 3 (lit "990001") (lit "IDX") 3000 1;
    mkRow 4 (lit "000002") (lit "BBB") 11 (-3) ]%float.

Definition index_twice_analysis : Analysis :=
  match analyze_stock_list index_twice_df with
  | Some a => a
  | None => no_analysis
  end.

(** A watchlist export whose only row has, as its code, an equals sign
    and the quoted text [#x]. *)
Definition hash_wrapped_row : list cell :=
  [Text (quoted (lit "#x")); Text (lit "AAA")].

Definition hash_wrapped_frame : DataFrame :=
  mkFrame [s_code; s_name] [hash_wrapped_row].

Definition hash_wrapped_export : File :=
  mkFile true
         (Returned (s_code ++ [9%N] ++ s_name))
         (Returned [s_code ++ [9%N] ++ s_name])
         (fun sp enc skip skipinitialspace =>
            match sp, enc, skip, skipinitialspace with
            | Tab, Gbk, 0, true => Returned hash_wrapped_frame
            | _, _, _, _ => Failed
            end)
         Failed.

(** A watchlist export whose second row has no code. *)
Definition missing_code_frame : DataFrame :=
  mkFrame [s_code; s_name]
          [ [Text (quoted (lit "000001")); Text (lit "AAA")];
            [NonText s_nan; Text (lit "GroupA")] ].

Definition missing_code_export : File :=
  mkFile true
         (Returned (s_code ++ [9%N] ++ s_name))
         (Returned [s_code ++ [9%N] ++ s_name])
         (fun sp enc skip skipinitialspace =>
            match sp, enc, skip, skipinitialspace with
            | Tab, Gbk, 0, true => Returned missing_code_frame
            | _, _, _, _ => Failed
            end)
         Failed.

(* ================================================================= *)
(** ** [analyze_kline]: the close column *)








(* ================================================================= *)
(** * Properties *)

(** ** Strings *)

Section StrFacts.

Lemma str_eqb_eq (a b : str) : Str.eqb a b = true <-> a = b.
Proof.
  revert b; induction a as [|x a IH]; intros [|y b]; simpl;
    try (split; congruence).
  rewrite andb_true_iff, N.eqb_eq, IH. split.
  - intros [-> ->]; reflexivity.
  - intros H; injection H; auto.
Qed.

Lemma str_eqb_refl (a : str) : Str.eqb a a = true.
Proof. apply str_eqb_eq; reflexivity. Qed.

Lemma str_eqb_neq (a b : str) : Str.eqb a b = false <-> a <> b.
Proof.
  rewrite <- str_eqb_eq. destruct (Str.eqb a b); split; congruence.
Qed.

Lemma startswith_spec (p s : str) :
  startswith p s = true <-> exists post, s = p ++ post.
Proof.
  revert s; induction p as [|x p IH]; intros s; simpl.
  - split; eauto.
  - destruct s as [|y s].
    + split; [discriminate | intros [post H]; discriminate].
    + rewrite andb_true_iff, N.eqb_eq, IH. split.
      * intros [-> [post ->]]; eauto.
      * intros [post H]; injection H as -> ->; eauto.
Qed.

(** The [in] operator finds exactly the substrings. *)
Lemma contains_spec (sub s : str) :
  contains sub s = true <-> exists pre post, s = pre ++ sub ++ post.
Proof.
  induction s as [|c s IH].
  - simpl. rewrite orb_false_r, startswith_spec. split.
    + intros [post H]. exists [], post. exact H.
    + intros [pre [post H]]. destruct pre; [eauto | discriminate].
  - simpl. rewrite orb_true_iff, startswith_spec, IH. split.
    + intros [[post H] | [pre [post H]]].
      * exists [], post. exact H.
      * exists (c :: pre), post. simpl. now rewrite H.
    + intros [[|c' pre] [post H]].
      * left; eauto.
      * right. injection H as _ H. eauto.
Qed.

End StrFacts.

(* ================================================================= *)
(** ** The watchlist grouper *)

Section Grouper.

Lemma group_rows_app (l1 l2 : list Row) (st : GroupState) :
  fold_left group_step (l1 ++ l2) st
  = fold_left group_step l2 (fold_left group_step l1 st).
Proof. apply fold_left_app. Qed.

(** C7 (noise-row rejection).  A marker row, that is a row whose
    stripped code is empty or does not start with a digit, whose label
    (the code, else the name) contains 重复 or 数据来源 leaves the loop
    state as it was: [current_group] is the same, no group is created
    and no group gains a member.  Hence the grouping of a frame is the
    grouping of the frame without that row. *)
Theorem noise_marker_row_ignored (st : GroupState) (row : Row) :
  is_marker_code (strip (code row)) = true ->
  (exists pre post,
      group_name_of (strip (code row)) (strip (name row))
      = pre ++ s_dup ++ post) \/
  (exists pre post,
      group_name_of (strip (code row)) (strip (name row))
      = pre ++ s_source ++ post) ->
  group_step st row = st /\
  st_current (group_step st row) = st_current st /\
  st_groups (group_step st row) = st_groups st /\
  forall before_rows after_rows,
    group_rows (before_rows ++ row :: after_rows)
    = group_rows (before_rows ++ after_rows).
Proof.
  intros Hm Hnoise.
  assert (Hrej : accepted_label
                   (group_name_of (strip (code row)) (strip (name row)))
                 = false).
  { unfold accepted_label.
    destruct Hnoise as [H | H]; apply contains_spec in H; rewrite H;
      simpl; now rewrite ?andb_false_r. }
  assert (Hstep : forall s, group_step s row = s).
  { intros s. unfold group_step. now rewrite Hm, Hrej. }
  repeat split; try now rewrite Hstep.
  intros l1 l2. unfold group_rows.
  rewrite !group_rows_app. simpl. now rewrite Hstep.
Qed.

End Grouper.

Lemma noise_marker_row_ignored_witness :
  group_step init_state noise_row = init_state.
Proof.
  apply (noise_marker_row_ignored init_state noise_row).
  - reflexivity.
  - right. exists [], (lit ":"). reflexivity.
Defined.

(* ================================================================= *)
(** ** Classification of a file *)

Section Classification.

(** C9 (watchlist detection).  A file is taken for a watchlist exactly
    when its first line could be read as GBK text and contains both 代码
    and 名称; when reading that line raises, the answer is [False] and
    the file goes down the price-series branch. *)
Theorem is_stock_list_iff (f : File) :
  (is_stock_list f = true <->
   exists first_line,
     gbk_readline f = Returned first_line /\
     (exists pre post, first_line = pre ++ s_code ++ post) /\
     (exists pre post, first_line = pre ++ s_name ++ post)) /\
  ((forall first_line, gbk_readline f <> Returned first_line) ->
   is_stock_list f = false /\ route_of f = PriceSeriesPath) /\
  (route_of f = WatchlistPath <-> is_stock_list f = true).
Proof.
  assert (Hr : route_of f = WatchlistPath <-> is_stock_list f = true).
  { unfold route_of. destruct (is_stock_list f); split; congruence. }
  assert (Hx : (forall first_line, gbk_readline f <> Returned first_line) ->
               is_stock_list f = false).
  { unfold is_stock_list. intros H.
    destruct (gbk_readline f) as [l| |]; [now elim (H l) | easy | easy]. }
  split; [|split; [|exact Hr]].
  - unfold is_stock_list. destruct (gbk_readline f) as [l| |].
    + rewrite andb_true_iff, !contains_spec. split.
      * intros [Hc Hn]. exists l. auto.
      * intros [l' [E [Hc Hn]]]. injection E as <-. auto.
    + split; [discriminate | intros [l [E _]]; discriminate].
    + split; [discriminate | intros [l [E _]]; discriminate].
  - intros H. split; [now apply Hx|].
    unfold route_of. now rewrite (Hx H).
Qed.

Lemma is_stock_list_iff_witness :
  (is_stock_list binary_file = false /\ route_of binary_file = PriceSeriesPath)
  /\ is_stock_list watchlist_file = true.
Proof.
  split.
  - apply (proj1 (proj2 (is_stock_list_iff binary_file))).
    intros l H. discriminate H.
  - apply (proj1 (is_stock_list_iff watchlist_file)).
    exists (s_code ++ [9%N] ++ s_name). split; [reflexivity|]. split.
    + exists [], ([9%N] ++ s_name). reflexivity.
    + exists (s_code ++ [9%N]), []. reflexivity.
Defined.

End Classification.

(* ================================================================= *)
(** ** The price-series summary *)

Section Kline.

Open Scope float_scope.




End Kline.

(* ================================================================= *)
(** ** [read_tdx_export] on .xls and .xlsx *)

Section XlsReader.

Lemma read_xls_text_trace (f : File) :
  (exists rest, snd (read_xls_text f) = EvOpenGbk :: rest) /\
  ~ In EvReadExcel (snd (read_xls_text f)).
Proof.
  unfold read_xls_text.
  destruct (gbk_readlines f) as [[|l0 ls]| |]; simpl;
    try (split; [eauto | intros [H | []]; discriminate]).
  destruct (read_csv f Tab Gbk (header_index (l0 :: ls)) true); simpl;
    (split; [eauto | intros [H | [H | []]]; discriminate]).
Qed.

(** When the tab-delimited reading gives no frame, one of its steps
    raised: the file could not be read as GBK text, it has no line, or
    [read_csv] raised. *)
Lemma read_xls_text_none (f : File) :
  fst (fst (read_xls_text f)) = None <->
  (forall lines, gbk_readlines f <> Returned lines) \/
  gbk_readlines f = Returned [] \/
  (exists lines,
      gbk_readlines f = Returned lines /\
      forall df, read_csv f Tab Gbk (header_index lines) true <> Returned df).
Proof.
  unfold read_xls_text.
  destruct (gbk_readlines f) as [[|l0 ls]| |] eqn:E; simpl.
  - split; auto.
  - assert (Hfail : (forall df, read_csv f Tab Gbk (header_index (l0 :: ls)) true
                                <> Returned df) ->
                    (forall lines,
                        Returned (l0 :: ls) <> Returned lines :> outcome (list str)) \/
                    Returned (l0 :: ls) = Returned [] :> outcome (list str) \/
                    (exists lines,
                        Returned (l0 :: ls) = Returned lines :> outcome (list str) /\
                        forall df, read_csv f Tab Gbk (header_index lines) true
                                   <> Returned df)).
    { intros H. right; right. exists (l0 :: ls). split; [reflexivity | exact H]. }
    destruct (read_csv f Tab Gbk (header_index (l0 :: ls)) true) eqn:R; simpl.
    + split; [discriminate|].
      intros [H | [H | [lines [H1 H2]]]].
      * now elim (H (l0 :: ls)).
      * discriminate.
      * injection H1 as <-. now elim (H2 a).
    + split; [intros _ | reflexivity]. apply Hfail. discriminate.
    + split; [intros _ | reflexivity]. apply Hfail. discriminate.
  - split; [intros _ | reflexivity]. left. discriminate.
  - split; [intros _ | reflexivity]. left. discriminate.
Qed.

(** C6 (fallback order).  For an existing .xls or .xlsx file the first
    call opens the file as GBK text and, when that gives at least one
    line, the second is [read_csv] with the tab separator, GBK and the
    header row found in the text.  When that [read_csv] returns, its
    frame is returned and [read_excel] is never called.  [read_excel] is
    called exactly when the tab-delimited reading raised (the file is
    not GBK text, it has no line, or [read_csv] raised), and then as the
    last call, after those of the tab-delimited reading. *)
Theorem xls_text_before_excel (suffix : str) (f : File) :
  suffix = s_xls \/ suffix = s_xlsx ->
  f_exists f = true ->
  (exists rest, snd (read_tdx_export suffix f) = EvOpenGbk :: rest) /\
  (In EvReadExcel (snd (read_tdx_export suffix f)) <->
   fst (fst (read_xls_text f)) = None) /\
  (fst (fst (read_xls_text f)) = None ->
   snd (read_tdx_export suffix f) = snd (read_xls_text f) ++ [EvReadExcel]) /\
  (forall df,
      fst (fst (read_xls_text f)) = Some df ->
      read_tdx_export suffix f
      = ((Some df, snd (fst (read_xls_text f))), snd (read_xls_text f)) /\
      ~ In EvReadExcel (snd (read_tdx_export suffix f))) /\
  (forall l0 rest df,
      gbk_readlines f = Returned (l0 :: rest) ->
      read_csv f Tab Gbk (header_index (l0 :: rest)) true = Returned df ->
      read_tdx_export suffix f
      = ((Some (strip_columns df), re_search (strip l0)),
         [EvOpenGbk; EvReadCsv Tab Gbk (header_index (l0 :: rest)) true])) /\
  (forall l0 rest,
      gbk_readlines f = Returned (l0 :: rest) ->
      (forall df, read_csv f Tab Gbk (header_index (l0 :: rest)) true
                  <> Returned df) ->
      snd (read_tdx_export suffix f)
      = [EvOpenGbk; EvReadCsv Tab Gbk (header_index (l0 :: rest)) true;
         EvReadExcel]) /\
  ((forall lines, gbk_readlines f <> Returned lines) \/
   gbk_readlines f = Returned [] ->
   snd (read_tdx_export suffix f) = [EvOpenGbk; EvReadExcel]) /\
  (In EvReadExcel (snd (read_tdx_export suffix f)) <->
   (forall lines, gbk_readlines f <> Returned lines) \/
   gbk_readlines f = Returned [] \/
   (exists lines,
       gbk_readlines f = Returned lines /\
       forall df, read_csv f Tab Gbk (header_index lines) true
                  <> Returned df)).
Proof.
  intros Hs He.
  destruct (read_xls_text_trace f) as [[rest Hrest] Hno].
  assert (E : read_tdx_export suffix f =
              match read_xls_text f with
              | (Some df, stock_info, tr) => ((Some df, stock_info), tr)
              | (None, stock_info, tr) =>
                  match read_excel f with
                  | Returned df => ((Some df, stock_info), tr ++ [EvReadExcel])
                  | _ => (nothing, tr ++ [EvReadExcel])
                  end
              end).
  { unfold read_tdx_export. rewrite He. simpl.
    destruct Hs as [-> | ->]; reflexivity. }
  assert (Hold :
    (exists rest, snd (read_tdx_export suffix f) = EvOpenGbk :: rest) /\
    (In EvReadExcel (snd (read_tdx_export suffix f)) <->
     fst (fst (read_xls_text f)) = None) /\
    (fst (fst (read_xls_text f)) = None ->
     snd (read_tdx_export suffix f) = snd (read_xls_text f) ++ [EvReadExcel]) /\
    (forall df,
        fst (fst (read_xls_text f)) = Some df ->
        read_tdx_export suffix f
        = ((Some df, snd (fst (read_xls_text f))), snd (read_xls_text f)) /\
        ~ In EvReadExcel (snd (read_tdx_export suffix f)))).
  { rewrite E.
    destruct (read_xls_text f) as [[[df|] info] tr]; simpl in *.
    - subst tr. repeat split; eauto; try discriminate.
      + intros H. now elim Hno.
      + injection H as <-. reflexivity.
    - subst tr.
      destruct (read_excel f); simpl; repeat split; eauto;
        try discriminate; intros _; right; apply in_or_app; right; now left. }
  destruct Hold as [H1 [H2 [H3 H4]]].
  split; [exact H1|]. split; [exact H2|]. split; [exact H3|].
  split; [exact H4|].
  split; [|split; [|split]].
  - intros l0 ls df Hl Hr. rewrite E. unfold read_xls_text.
    rewrite Hl, Hr. reflexivity.
  - intros l0 ls Hl Hr.
    assert (T : read_xls_text f
                = (None, re_search (strip l0),
                   [EvOpenGbk;
                    EvReadCsv Tab Gbk (header_index (l0 :: ls)) true])).
    { unfold read_xls_text. rewrite Hl.
      destruct (read_csv f Tab Gbk (header_index (l0 :: ls)) true) as [d| |];
        [now elim (Hr d) | reflexivity | reflexivity]. }
    rewrite E, T. now destruct (read_excel f).
  - intros Hl.
    assert (T : read_xls_text f = (None, None, [EvOpenGbk])).
    { unfold read_xls_text. destruct Hl as [Hl | Hl].
      - destruct (gbk_readlines f) as [lines| |];
          [now elim (Hl lines) | reflexivity | reflexivity].
      - now rewrite Hl. }
    rewrite E, T. now destruct (read_excel f).
  - rewrite H2. apply read_xls_text_none.
Qed.

Lemma xls_text_before_excel_witness :
  read_tdx_export s_xls text_xls_file
  = ((Some (strip_columns kline_frame), re_search (strip pingan_line)),
     [EvOpenGbk; EvReadCsv Tab Gbk 1 true]) /\
  snd (read_tdx_export s_xlsx binary_file) = [EvOpenGbk; EvReadExcel] /\
  snd (read_tdx_export s_xls unreadable_xls_file)
  = [EvOpenGbk; EvReadCsv Tab Gbk 0 true; EvReadExcel].
Proof.
  pose proof (xls_text_before_excel s_xls text_xls_file
                (or_introl eq_refl) eq_refl) as [_ [_ [_ [_ [H5 _]]]]].
  pose proof (xls_text_before_excel s_xlsx binary_file
                (or_intror eq_refl) eq_refl) as [_ [_ [_ [_ [_ [_ [H7 _]]]]]]].
  pose proof (xls_text_before_excel s_xls unreadable_xls_file
                (or_introl eq_refl) eq_refl) as [_ [_ [_ [_ [_ [H6 _]]]]]].
  split; [|split].
  - exact (H5 pingan_line [s_time ++ lit " close"; lit "2024 10.5"]
              kline_frame eq_refl eq_refl).
  - apply H7. left. intros lines H. discriminate H.
  - apply (H6 pingan_line [] eq_refl). intros df H. discriminate H.
Defined.

End XlsReader.

(* ================================================================= *)
(** ** The identity line of an .xls export *)

Section IdentityLine.

Lemma span_spec (p : char -> bool) (s a b : str) :
  span p s = (a, b) ->
  s = a ++ b /\ forallb p a = true /\
  match b with [] => True | c :: _ => p c = false end.
Proof.
  revert a b; induction s as [|c s IH]; intros a b; simpl.
  - intros H; injection H as <- <-. auto.
  - destruct (p c) eqn:Pc.
    + destruct (span p s) as [a' b'] eqn:E.
      intros H; injection H as <- <-.
      destruct (IH a' b' eq_refl) as [-> [Ha Hb]].
      simpl. rewrite Pc, Ha. auto.
    + intros H; injection H as <- <-. simpl. auto.
Qed.

Lemma span_stops (p : char -> bool) (a : str) (c : char) (b : str) :
  forallb p a = true -> p c = false ->
  span p (a ++ c :: b) = (a, c :: b).
Proof.
  intros Ha Hc. induction a as [|x a IH]; simpl in *.
  - now rewrite Hc.
  - apply andb_true_iff in Ha as [-> Ha]. now rewrite (IH Ha).
Qed.

Lemma space_not_cjk (c : char) : isspace c = true -> is_cjk c = false.
Proof.
  unfold isspace, is_cjk, in_ranges, space_table. simpl.
  rewrite !orb_true_iff, !andb_true_iff, !N.leb_le, andb_false_iff, !N.leb_gt.
  lia.
Qed.

Lemma open_not_cjk (c : char) : is_open c = true -> is_cjk c = false.
Proof.
  unfold is_open, is_cjk.
  rewrite orb_true_iff, !N.eqb_eq, andb_false_iff, !N.leb_gt. lia.
Qed.

Lemma open_not_space (c : char) : is_open c = true -> isspace c = false.
Proof.
  unfold is_open. rewrite orb_true_iff, !N.eqb_eq.
  intros [-> | ->]; reflexivity.
Qed.

Lemma close_not_09 (c : char) : is_close c = true -> is_09 c = false.
Proof.
  unfold is_close. rewrite orb_true_iff, !N.eqb_eq.
  intros [-> | ->]; reflexivity.
Qed.

(** A match at the head is found, with the whole run of ideographs as
    the name and the whole run of digits as the code. *)
Lemma match_here_complete (nm ws : str) (op : char) (ds : str) (cl : char)
      (post : str) :
  nm <> [] -> forallb is_cjk nm = true ->
  forallb isspace ws = true ->
  is_open op = true ->
  ds <> [] -> forallb is_09 ds = true ->
  is_close cl = true ->
  match_here (nm ++ ws ++ [op] ++ ds ++ [cl] ++ post)
  = Some (mkInfo nm ds).
Proof.
  intros Hnm Hcjk Hws Hop Hds H09 Hcl.
  unfold match_here.
  assert (E1 : span is_cjk (nm ++ ws ++ [op] ++ ds ++ [cl] ++ post)
               = (nm, ws ++ [op] ++ ds ++ [cl] ++ post)).
  { destruct ws as [|w ws]; simpl.
    - apply span_stops; auto using open_not_cjk.
    - simpl in Hws. apply andb_true_iff in Hws as [Hw _].
      apply span_stops; auto using space_not_cjk. }
  rewrite E1. destruct nm as [|n0 nm]; [congruence|].
  assert (E2 : span isspace (ws ++ [op] ++ ds ++ [cl] ++ post)
               = (ws, op :: ds ++ [cl] ++ post)).
  { apply span_stops; auto using open_not_space. }
  rewrite E2. cbn [snd]. rewrite Hop.
  assert (E3 : span is_09 (ds ++ [cl] ++ post) = (ds, cl :: post)).
  { apply span_stops; auto using close_not_09. }
  rewrite E3. destruct ds as [|d ds]; [congruence|].
  now rewrite Hcl.
Qed.

(** What a match at the head means. *)
Lemma match_here_sound (s : str) (m : StockInfo) :
  match_here s = Some m ->
  exists ws op cl post,
    s = info_name m ++ ws ++ [op] ++ info_code m ++ [cl] ++ post /\
    info_name m <> [] /\ forallb is_cjk (info_name m) = true /\
    forallb isspace ws = true /\
    is_open op = true /\
    info_code m <> [] /\ forallb is_09 (info_code m) = true /\
    is_close cl = true.
Proof.
  unfold match_here.
  destruct (span is_cjk s) as [nm r1] eqn:E1.
  destruct nm as [|n0 nm]; [discriminate|].
  destruct (span isspace r1) as [ws r2] eqn:E2. cbn [snd].
  destruct r2 as [|op r3]; [discriminate|].
  destruct (is_open op) eqn:Hop; [|discriminate].
  destruct (span is_09 r3) as [ds r4] eqn:E3.
  destruct ds as [|d ds]; [discriminate|].
  destruct r4 as [|cl post]; [discriminate|].
  destruct (is_close cl) eqn:Hcl; [|discriminate].
  intros H; injection H as <-. simpl.
  apply span_spec in E1 as [-> [H1 _]].
  apply span_spec in E2 as [-> [H2 _]].
  apply span_spec in E3 as [-> [H3 _]].
  exists ws, op, cl, post.
  repeat split; auto; discriminate.
Qed.

Lemma re_search_sound (s : str) (m : StockInfo) :
  re_search s = Some m -> cjk_paren_pattern s.
Proof.
  induction s as [|c s IH].
  - simpl. discriminate.
  - simpl re_search. destruct (match_here (c :: s)) as [m'|] eqn:E.
    + intros _. apply match_here_sound in E
        as [ws [op [cl [post [Hs H]]]]].
      exists [], (info_name m'), ws, op, (info_code m'), cl, post.
      split; [exact Hs | exact H].
    + intros H. destruct (IH H)
        as [pre [nm [ws [op [ds [cl [post [Hs Hr]]]]]]]].
      exists (c :: pre), nm, ws, op, ds, cl, post.
      split; [simpl; now rewrite Hs | exact Hr].
Qed.

Lemma re_search_complete (s : str) :
  cjk_paren_pattern s -> re_search s <> None.
Proof.
  intros [pre [nm [ws [op [ds [cl [post [-> [H1 [H2 [H3 [H4 [H5 [H6 H7]]]]]]]]]]]]]].
  induction pre as [|c pre IH].
  - destruct nm as [|n0 nm]; [congruence|].
    simpl app. simpl re_search.
    change (n0 :: nm ++ ws ++ op :: ds ++ cl :: post)
      with ((n0 :: nm) ++ ws ++ [op] ++ ds ++ [cl] ++ post).
    rewrite match_here_complete by assumption. discriminate.
  - simpl app. simpl re_search.
    destruct (match_here (c :: pre ++ nm ++ ws ++ op :: ds ++ cl :: post));
      [discriminate | exact IH].
Qed.

End IdentityLine.

Section IdentityLineStrip.

Lemma dropwhile_suffix (p : char -> bool) (s : str) :
  exists a, s = a ++ dropwhile p s.
Proof.
  induction s as [|c s [a IH]]; simpl.
  - exists []. reflexivity.
  - destruct (p c).
    + exists (c :: a). simpl. now rewrite <- IH.
    + exists []. reflexivity.
Qed.

Lemma dropwhile_keeps (p : char -> bool) (pre : str) (x : char) (r : str) :
  p x = false ->
  exists pre', dropwhile p (pre ++ x :: r) = pre' ++ x :: r.
Proof.
  intros Hx. induction pre as [|c pre [pre' IH]]; simpl.
  - rewrite Hx. exists []. reflexivity.
  - destruct (p c).
    + exists pre'. exact IH.
    + exists (c :: pre). reflexivity.
Qed.

Lemma strip_infix (s : str) : exists a b, s = a ++ strip s ++ b.
Proof.
  unfold strip, rstrip, lstrip.
  destruct (dropwhile_suffix isspace s) as [a Ha].
  destruct (dropwhile_suffix isspace (rev (dropwhile isspace s))) as [b Hb].
  exists a, (rev b).
  rewrite <- rev_app_distr, <- Hb, rev_involutive. exact Ha.
Qed.

(** Stripping keeps any stretch of the line that starts and ends with a
    character that is not whitespace. *)
Lemma strip_keeps (pre : str) (x : char) (mid : str) (y : char) (post : str) :
  isspace x = false -> isspace y = false ->
  exists pre' post',
    strip (pre ++ x :: mid ++ y :: post) = pre' ++ x :: mid ++ y :: post'.
Proof.
  intros Hx Hy. unfold strip, rstrip, lstrip.
  destruct (dropwhile_keeps isspace pre x (mid ++ y :: post) Hx) as [pre' ->].
  assert (R : forall A : str, rev (A ++ y :: post) = rev post ++ y :: rev A).
  { intros A. rewrite rev_app_distr. simpl. now rewrite <- app_assoc. }
  replace (pre' ++ x :: mid ++ y :: post)
    with ((pre' ++ x :: mid) ++ y :: post) by (now rewrite <- app_assoc).
  rewrite R.
  destruct (dropwhile_keeps isspace (rev post) y (rev (pre' ++ x :: mid)) Hy)
    as [q ->].
  exists pre', (rev q).
  rewrite rev_app_distr. simpl. rewrite rev_involutive.
  now rewrite <- !app_assoc.
Qed.

Lemma cjk_not_space (c : char) : is_cjk c = true -> isspace c = false.
Proof.
  intros H. destruct (isspace c) eqn:E; [|reflexivity].
  apply space_not_cjk in E. congruence.
Qed.

Lemma close_not_space (c : char) : is_close c = true -> isspace c = false.
Proof.
  unfold is_close. rewrite orb_true_iff, !N.eqb_eq.
  intros [-> | ->]; reflexivity.
Qed.

(** The pattern occurs in the stripped line exactly when it occurs in
    the line. *)
Lemma cjk_paren_pattern_strip (line : str) :
  cjk_paren_pattern (strip line) <-> cjk_paren_pattern line.
Proof.
  split.
  - intros [pre [nm [ws [op [ds [cl [post [Hs Hr]]]]]]]].
    destruct (strip_infix line) as [a [b Hl]].
    exists (a ++ pre), nm, ws, op, ds, cl, (post ++ b).
    split; [|exact Hr].
    rewrite Hl, Hs. now rewrite <- !app_assoc.
  - intros [pre [nm [ws [op [ds [cl [post [Hs Hr]]]]]]]].
    destruct nm as [|n0 nm]; [now destruct Hr|].
    assert (Hn0 : isspace n0 = false).
    { apply cjk_not_space. destruct Hr as [_ [H _]]. simpl in H.
      now apply andb_true_iff in H. }
    assert (Hcl : isspace cl = false).
    { apply close_not_space. apply Hr. }
    destruct (strip_keeps pre n0 (nm ++ ws ++ [op] ++ ds) cl post Hn0 Hcl)
      as [pre' [post' E]].
    exists pre', (n0 :: nm), ws, op, ds, cl, post'.
    split; [|exact Hr].
    rewrite Hs.
    replace (pre ++ (n0 :: nm) ++ ws ++ [op] ++ ds ++ [cl] ++ post)
      with (pre ++ n0 :: (nm ++ ws ++ [op] ++ ds) ++ cl :: post).
    + rewrite E. simpl. now rewrite <- !app_assoc.
    + simpl. now rewrite <- !app_assoc.
Qed.

(** C8, as stated, fails: 万科A (000002) is a name, a space and a number
    in parentheses, yet the reader leaves the metadata unset, because
    the name pattern admits ideographs only and the letter stands
    between them and the parenthesis. *)
Lemma identity_line_latin_letter_counterexample :
  spec_identity_line vanke_line /\
  re_search (strip vanke_line) = None /\
  fst (read_tdx_export s_xls vanke_xls_file)
  = (Some (mkFrame [s_time; lit "close"]
                   [[NonText (lit "2024"); NonText (lit "10.5")]]),
     None).
Proof.
  split; [|split; reflexivity].
  exists ([0x4E07; 0x79D1]%N ++ lit "A"), (lit " "), 40%N, (lit "000002"), 41%N.
  repeat split; discriminate.
Qed.

(** C8, amended.  On the text reading of an .xls or .xlsx file the
    metadata returned with a frame is set exactly when the first line
    contains, anywhere, one or more ideographs of U+4E00..U+9FA5
    followed by optional whitespace and by one or more digits 0-9 in
    parentheses, each parenthesis ASCII or fullwidth; whether or not the
    line matches, the frame [read_csv] gives is returned. *)
Theorem stock_info_iff_cjk_pattern
        (suffix : str) (f : File) (l0 : str) (rest : list str) :
  suffix = s_xls \/ suffix = s_xlsx ->
  f_exists f = true ->
  gbk_readlines f = Returned (l0 :: rest) ->
  (re_search (strip l0) <> None <-> cjk_paren_pattern l0) /\
  (forall df info,
      fst (read_tdx_export suffix f) = (Some df, info) ->
      info = re_search (strip l0) /\
      (info <> None <-> cjk_paren_pattern l0)) /\
  (forall df,
      read_csv f Tab Gbk (header_index (l0 :: rest)) true = Returned df ->
      fst (read_tdx_export suffix f)
      = (Some (strip_columns df), re_search (strip l0))).
Proof.
  intros Hs He Hl.
  assert (E : read_tdx_export suffix f =
              match read_xls_text f with
              | (Some df, stock_info, tr) => ((Some df, stock_info), tr)
              | (None, stock_info, tr) =>
                  match read_excel f with
                  | Returned df => ((Some df, stock_info), tr ++ [EvReadExcel])
                  | _ => (nothing, tr ++ [EvReadExcel])
                  end
              end).
  { unfold read_tdx_export. rewrite He. simpl.
    destruct Hs as [-> | ->]; reflexivity. }
  assert (Hiff : re_search (strip l0) <> None <-> cjk_paren_pattern l0).
  { rewrite <- cjk_paren_pattern_strip. split.
    - destruct (re_search (strip l0)) as [m|] eqn:R; [|congruence].
      intros _. exact (re_search_sound _ _ R).
    - apply re_search_complete. }
  split; [exact Hiff | split].
  - intros df info Hret.
    assert (Hinfo : info = re_search (strip l0)).
    { revert Hret. rewrite E. unfold read_xls_text. rewrite Hl.
      destruct (read_csv f Tab Gbk (header_index (l0 :: rest)) true);
        simpl; try (destruct (read_excel f); simpl); unfold nothing;
        congruence. }
    split; [exact Hinfo | now rewrite Hinfo].
  - intros df R. rewrite E. unfold read_xls_text. rewrite Hl, R.
    reflexivity.
Qed.

Lemma stock_info_iff_cjk_pattern_witness :
  fst (read_tdx_export s_xls text_xls_file)
  = (Some (mkFrame [s_time; lit "close"]
                   [[NonText (lit "2024"); NonText (lit "10.5")]]),
     Some (mkInfo [0x5E73; 0x5B89; 0x94F6; 0x884C]%N (lit "000001"))).
Proof.
  exact (proj2 (proj2 (stock_info_iff_cjk_pattern
                         s_xls text_xls_file pingan_line
                         [s_time ++ lit " close"; lit "2024 10.5"]
                         (or_introl eq_refl) eq_refl eq_refl))
               kline_frame eq_refl).
Defined.

End IdentityLineStrip.

(* ================================================================= *)
(** ** Membership in the groups *)

Section GroupMembers.

Lemma has_key_app {V} (k : str) (a b : list (str * V)) :
  has_key k (a ++ b) = has_key k a || has_key k b.
Proof.
  induction a as [|[k' v] a IH]; simpl; [reflexivity|].
  now rewrite IH, orb_assoc.
Qed.

Lemma has_key_In {V} (k : str) (d : list (str * V)) :
  has_key k d = true <-> In k (map fst d).
Proof.
  induction d as [|[k' v] d IH]; simpl.
  - split; [discriminate | tauto].
  - rewrite orb_true_iff, IH, str_eqb_eq. intuition congruence.
Qed.

Lemma has_key_ensure (k : str) (g : groups_t) :
  has_key k (ensure_group k g) = true.
Proof.
  unfold ensure_group. destruct (has_key k g) eqn:E; [exact E|].
  rewrite has_key_app. simpl. now rewrite str_eqb_refl, orb_true_r.
Qed.

Lemma members_ensure (k : str) (g : groups_t) :
  members (ensure_group k g) = members g.
Proof.
  unfold ensure_group, members. destruct (has_key k g); [reflexivity|].
  rewrite map_app, concat_app. simpl. now rewrite app_nil_r.
Qed.

Lemma has_key_append_at {V} (c k : str) (x : V) (d : list (str * list V)) :
  has_key c (append_at k x d) = has_key c d.
Proof.
  induction d as [|[k' xs] d IH]; simpl; [reflexivity|].
  destruct (Str.eqb k k'); simpl; [reflexivity | now rewrite IH].
Qed.

Lemma in_members_append (k : str) (x y : Row) (d : groups_t) :
  In y (members (append_at k x d)) <->
  In y (members d) \/ (has_key k d = true /\ y = x).
Proof.
  unfold members. induction d as [|[k' xs] d IH]; simpl.
  - intuition discriminate.
  - destruct (Str.eqb k k'); simpl.
    + rewrite !in_app_iff. simpl. intuition.
    + rewrite !in_app_iff, IH. intuition.
Qed.

Lemma group_step_members (st : GroupState) (r y : Row) :
  In y (members (st_groups (group_step st r))) <->
  In y (members (st_groups st)) \/
  (is_marker_code (strip (code r)) = false /\ y = r).
Proof.
  unfold group_step. destruct (is_marker_code (strip (code r))).
  - destruct (accepted_label _); simpl.
    + rewrite members_ensure. intuition discriminate.
    + intuition discriminate.
  - simpl. rewrite in_members_append, members_ensure, has_key_ensure.
    intuition.
Qed.

Lemma fold_group_step_members (l : list Row) (st : GroupState) (y : Row) :
  In y (members (st_groups (fold_left group_step l st))) <->
  In y (members (st_groups st)) \/
  (In y l /\ is_marker_code (strip (code y)) = false).
Proof.
  revert st; induction l as [|r l IH]; intros st; simpl.
  - tauto.
  - rewrite IH, group_step_members. intuition (subst; auto).
Qed.

(** The grouped rows are the data rows of the frame. *)
Lemma group_rows_members (df : list Row) (y : Row) :
  In y (members (st_groups (group_rows df))) <->
  In y df /\ is_marker_code (strip (code y)) = false.
Proof.
  unfold group_rows. rewrite fold_group_step_members. simpl. tauto.
Qed.

Lemma members_group_dfs (g : groups_t) :
  members (group_dfs_of g) = members g.
Proof.
  unfold members. induction g as [|[k [|r rs]] g IH]; simpl; auto.
  now rewrite IH.
Qed.

Lemma group_dfs_nonempty (g : groups_t) (k : str) (rs : list Row) :
  In (k, rs) (group_dfs_of g) -> rs <> [].
Proof.
  unfold group_dfs_of. rewrite filter_In. simpl.
  intros [_ H] ->. discriminate.
Qed.

Lemma all_stocks_members (gd : groups_t) (df : list Row) :
  gd <> [] -> all_stocks_of gd df = members gd.
Proof. destruct gd; [congruence | reflexivity]. Qed.

(** Every row [analyze_stock_list] works on is a row of the frame, and
    every data row of the frame is among them. *)
Lemma all_stocks_In (df : list Row) (y : Row) :
  (In y (all_stocks_of (group_dfs_of (st_groups (group_rows df))) df) ->
   In y df) /\
  (In y df -> is_marker_code (strip (code y)) = false ->
   In y (all_stocks_of (group_dfs_of (st_groups (group_rows df))) df) /\
   group_dfs_of (st_groups (group_rows df)) <> []).
Proof.
  split.
  - destruct (group_dfs_of (st_groups (group_rows df))) eqn:E; [simpl; auto|].
    rewrite all_stocks_members by discriminate.
    rewrite <- E, members_group_dfs, group_rows_members. tauto.
  - intros Hin Hd.
    assert (H : In y (members (group_dfs_of (st_groups (group_rows df))))).
    { rewrite members_group_dfs, group_rows_members. auto. }
    assert (Hne : group_dfs_of (st_groups (group_rows df)) <> []).
    { intros E. rewrite E in H. exact H. }
    split; [|exact Hne]. now rewrite all_stocks_members.
Qed.

End GroupMembers.

(* ================================================================= *)
(** ** Dedup, cross-reference and listings *)

Section Dedup.

Lemma existsb_code (c : str) (seen : list str) :
  existsb (Str.eqb c) seen = true <-> In c seen.
Proof.
  rewrite existsb_exists. split.
  - intros [x [Hx E]]. apply str_eqb_eq in E. now subst.
  - intros H. exists c. split; [exact H | apply str_eqb_refl].
Qed.

Lemma drop_dup_from_In (seen : list str) (l : list Row) (r : Row) :
  In r (drop_dup_from seen l) ->
  In r l /\ ~ In (code r) seen /\
  find (fun x => Str.eqb (code x) (code r)) l = Some r.
Proof.
  revert seen; induction l as [|h l IH]; intros seen; simpl; [tauto|].
  destruct (existsb (Str.eqb (code h)) seen) eqn:E.
  - intros H. destruct (IH _ H) as [H1 [H2 H3]].
    repeat split; auto.
    destruct (Str.eqb (code h) (code r)) eqn:Ec; [|exact H3].
    apply str_eqb_eq in Ec. apply existsb_code in E. congruence.
  - intros [<- | H].
    + repeat split; auto.
      * intros Hin. apply existsb_code in Hin. congruence.
      * now rewrite str_eqb_refl.
    + destruct (IH _ H) as [H1 [H2 H3]]. simpl in H2.
      repeat split; auto.
      destruct (Str.eqb (code h) (code r)) eqn:Ec; [|exact H3].
      apply str_eqb_eq in Ec. tauto.
Qed.

Lemma drop_dup_from_NoDup (seen : list str) (l : list Row) :
  NoDup (map code (drop_dup_from seen l)).
Proof.
  revert seen; induction l as [|h l IH]; intros seen; simpl.
  - constructor.
  - destruct (existsb (Str.eqb (code h)) seen); [apply IH|].
    simpl. constructor; [|apply IH].
    intros Hin. apply in_map_iff in Hin as [r [Hc Hr]].
    apply drop_dup_from_In in Hr as [_ [Hns _]].
    apply Hns. rewrite Hc. now left.
Qed.

Lemma drop_dup_from_covers (seen : list str) (l : list Row) (x : Row) :
  In x l -> ~ In (code x) seen ->
  exists r, In r (drop_dup_from seen l) /\ code r = code x.
Proof.
  revert seen; induction l as [|h l IH]; intros seen; simpl; [tauto|].
  intros Hin Hns.
  destruct (existsb (Str.eqb (code h)) seen) eqn:E.
  - destruct Hin as [-> | Hin].
    + apply existsb_code in E. tauto.
    + now apply IH.
  - destruct (Str.eqb (code h) (code x)) eqn:Ec.
    + apply str_eqb_eq in Ec. exists h. split; [now left | exact Ec].
    + apply str_eqb_neq in Ec. destruct Hin as [-> | Hin]; [congruence|].
      destruct (IH (code h :: seen) Hin) as [r [Hr Hc]].
      * simpl. intros [H | H]; [congruence | tauto].
      * exists r. split; [now right | exact Hc].
Qed.

Lemma insert_sorted_In (x r : Row) (l : list Row) :
  In r (insert_sorted x l) <-> r = x \/ In r l.
Proof.
  induction l as [|h l IH]; simpl.
  - intuition.
  - destruct (before x h); simpl; [|rewrite IH]; intuition.
Qed.

(** Sorting a listing moves rows, it neither adds nor drops any. *)
Lemma sort_values_In (r : Row) (l : list Row) :
  In r (sort_values l) <-> In r l.
Proof.
  unfold sort_values. induction l as [|h l IH]; simpl; [tauto|].
  rewrite insert_sorted_In, IH. intuition.
Qed.

Lemma listings_In (gd : groups_t) (g : str) (l : list Row) (r : Row) :
  In (g, l) (listings_of gd) -> In r l ->
  not_index r = true /\ In r (members gd).
Proof.
  unfold listings_of, members. rewrite in_flat_map.
  intros [[k rs] [Hk Hl]] Hr. simpl in Hl.
  destruct (filter not_index rs) as [|a t] eqn:E; [destruct Hl|].
  destruct Hl as [Hl | []]. injection Hl as <- <-.
  assert (Hr' : In r (filter not_index rs)).
  { rewrite E. now apply sort_values_In. }
  clear Hr. apply filter_In in Hr' as [Hr Hn]. split; [exact Hn|].
  apply in_concat. exists rs. split; [|exact Hr].
  apply in_map_iff. now exists (k, rs).
Qed.

Lemma has_key_counter_add (c x : str) (cnt : list (str * nat)) :
  has_key c (counter_add x cnt) = Str.eqb c x || has_key c cnt.
Proof.
  induction cnt as [|[k n] cnt IH]; simpl.
  - reflexivity.
  - destruct (Str.eqb x k) eqn:E; simpl.
    + apply str_eqb_eq in E. subst.
      now destruct (Str.eqb c k).
    + rewrite IH. now destruct (Str.eqb c x), (Str.eqb c k).
Qed.

Lemma has_key_counter_fold (c : str) (xs : list str) (cnt : list (str * nat)) :
  has_key c (fold_left (fun cnt c => counter_add c cnt) xs cnt) = true ->
  In c xs \/ has_key c cnt = true.
Proof.
  revert cnt; induction xs as [|x xs IH]; intros cnt; simpl; [auto|].
  intros H. apply IH in H as [H | H]; [auto|].
  rewrite has_key_counter_add in H. apply orb_true_iff in H as [H | H].
  - apply str_eqb_eq in H. auto.
  - auto.
Qed.

Lemma has_key_fold_append (c : str) (l : list (str * str))
      (d : list (str * list str)) :
  has_key c
    (fold_left
       (fun d cg =>
          if has_key (fst cg) d then append_at (fst cg) (snd cg) d else d)
       l d)
  = has_key c d.
Proof.
  revert d; induction l as [|[k g] l IH]; intros d; simpl; [reflexivity|].
  rewrite IH. destruct (has_key k d); [apply has_key_append_at | reflexivity].
Qed.

(** A key of [duplicates] is one of the codes that were counted. *)
Lemma duplicates_key_counted (ac : list (str * str)) (c : str) :
  has_key c (duplicates_of ac) = true -> In c (map fst ac).
Proof.
  unfold duplicates_of. rewrite has_key_fold_append.
  rewrite has_key_In, map_map. simpl.
  intros H. apply in_map_iff in H as [[k n] [Hk Hf]]. simpl in Hk. subst k.
  apply filter_In in Hf as [Hf _].
  assert (Hc : has_key c (Counter (map fst ac)) = true).
  { apply has_key_In. apply in_map_iff. now exists (c, n). }
  unfold Counter in Hc. apply has_key_counter_fold in Hc as [Hc | Hc].
  - exact Hc.
  - discriminate.
Qed.

Lemma all_codes_In (gd : groups_t) (c : str) :
  In c (map fst (all_codes_of gd)) ->
  exists r, In r (members gd) /\ not_index r = true /\ code r = c.
Proof.
  unfold all_codes_of, members. rewrite in_map_iff.
  intros [[c' g] [Hc Hin]]. simpl in Hc. subst c'.
  apply in_flat_map in Hin as [[k rs] [Hk Hin]]. simpl in Hin.
  apply in_map_iff in Hin as [r [Hr Hin]]. injection Hr as Hr _.
  apply filter_In in Hin as [Hin Hn].
  exists r. repeat split; auto.
  apply in_concat. exists rs. split; [|exact Hin].
  apply in_map_iff. now exists (k, rs).
Qed.

End Dedup.

(* ================================================================= *)
(** ** What [duplicates] holds *)

Section Duplicates.

Lemma lookup_counter_add (c x : str) (cnt : list (str * nat)) :
  lookup c (counter_add x cnt)
  = if Str.eqb c x
    then Some (S (match lookup c cnt with Some n => n | None => 0 end))
    else lookup c cnt.
Proof.
  induction cnt as [|[k n] cnt IH]; simpl.
  - reflexivity.
  - destruct (Str.eqb x k) eqn:Exk; simpl.
    + apply str_eqb_eq in Exk. subst k.
      now destruct (Str.eqb c x).
    + rewrite IH. destruct (Str.eqb c x) eqn:Ecx; [|reflexivity].
      apply str_eqb_eq in Ecx. subst c. now rewrite Exk.
Qed.

Lemma lookup_counter_fold (c : str) (xs : list str) (cnt : list (str * nat)) :
  match lookup c (fold_left (fun cnt x => counter_add x cnt) xs cnt) with
  | Some n => n
  | None => 0
  end
  = count_label c xs + match lookup c cnt with Some n => n | None => 0 end.
Proof.
  unfold count_label.
  revert cnt; induction xs as [|x xs IH]; intros cnt; simpl; [reflexivity|].
  rewrite IH, lookup_counter_add.
  destruct (Str.eqb c x); simpl; lia.
Qed.

Lemma keys_counter_add (x : str) (cnt : list (str * nat)) :
  map fst (counter_add x cnt)
  = if has_key x cnt then map fst cnt else map fst cnt ++ [x].
Proof.
  induction cnt as [|[k n] cnt IH]; simpl; [reflexivity|].
  destruct (Str.eqb x k); simpl; [reflexivity|].
  rewrite IH. now destruct (has_key x cnt).
Qed.

Lemma counter_fold_NoDup (xs : list str) (cnt : list (str * nat)) :
  NoDup (map fst cnt) ->
  NoDup (map fst (fold_left (fun cnt x => counter_add x cnt) xs cnt)).
Proof.
  revert cnt; induction xs as [|x xs IH]; intros cnt H; simpl; [exact H|].
  apply IH. rewrite keys_counter_add.
  destruct (has_key x cnt) eqn:E; [exact H|].
  apply NoDup_app; repeat split; auto.
  - constructor; [tauto | constructor].
  - intros k Hk [<- | []].
    apply has_key_In in Hk. congruence.
Qed.

Lemma lookup_In {V} (c : str) (v : V) (d : list (str * V)) :
  NoDup (map fst d) -> (In (c, v) d <-> lookup c d = Some v).
Proof.
  induction d as [|[k w] d IH]; simpl; intros H.
  - split; [tauto | discriminate].
  - inversion H as [|? ? Hk Hd]; subst.
    destruct (Str.eqb c k) eqn:E.
    + apply str_eqb_eq in E. subst k. split.
      * intros [H1 | H1]; [congruence|].
        elim Hk. apply in_map_iff. now exists (c, v).
      * intros H1. left. congruence.
    + apply str_eqb_neq in E. rewrite <- (IH Hd). split.
      * intros [H1 | H1]; [congruence | exact H1].
      * auto.
Qed.

(** A code is a key of [duplicates] exactly when at least two of the
    counted rows carry it, whichever groups they are in. *)
Lemma duplicates_key_iff (ac : list (str * str)) (c : str) :
  has_key c (duplicates_of ac) = true <-> 2 <= count_label c (map fst ac).
Proof.
  unfold duplicates_of. rewrite has_key_fold_append, has_key_In, map_map.
  simpl.
  pose proof (lookup_counter_fold c (map fst ac) []) as Hcount.
  simpl in Hcount. rewrite Nat.add_0_r in Hcount.
  fold (Counter (map fst ac)) in Hcount.
  assert (Hnd : NoDup (map fst (Counter (map fst ac)))).
  { apply counter_fold_NoDup. constructor. }
  split.
  - intros H. apply in_map_iff in H as [[k n] [Hk Hf]]. simpl in Hk. subst k.
    apply filter_In in Hf as [Hin Hn]. simpl in Hn.
    apply (lookup_In _ _ _ Hnd) in Hin. rewrite Hin in Hcount.
    apply Nat.ltb_lt in Hn. lia.
  - intros H.
    destruct (lookup c (Counter (map fst ac))) as [n|] eqn:E; [|lia].
    apply in_map_iff. exists (c, n). split; [reflexivity|].
    apply filter_In. split.
    + now apply (lookup_In _ _ _ Hnd).
    + simpl. apply Nat.ltb_lt. lia.
Qed.

Lemma lookup_append_at {V} (c k : str) (x : V) (d : list (str * list V)) :
  lookup c (append_at k x d)
  = if Str.eqb c k then option_map (fun l => l ++ [x]) (lookup c d)
    else lookup c d.
Proof.
  induction d as [|[k' xs] d IH]; simpl.
  - now destruct (Str.eqb c k).
  - destruct (Str.eqb k k') eqn:Ek; simpl.
    + apply str_eqb_eq in Ek. subst k'.
      now destruct (Str.eqb c k).
    + rewrite IH. destruct (Str.eqb c k) eqn:Ec; [|reflexivity].
      apply str_eqb_eq in Ec. subst c. now rewrite Ek.
Qed.

Lemma lookup_fold_append (c : str) (l : list (str * str))
      (d : list (str * list str)) :
  lookup c
    (fold_left
       (fun d cg =>
          if has_key (fst cg) d then append_at (fst cg) (snd cg) d else d)
       l d)
  = option_map
      (fun gs => gs ++ map snd (filter (fun cg => Str.eqb c (fst cg)) l))
      (lookup c d).
Proof.
  revert d; induction l as [|[k g] l IH]; intros d; simpl.
  - destruct (lookup c d); simpl; [now rewrite app_nil_r | reflexivity].
  - rewrite IH. destruct (has_key k d) eqn:Hk.
    + rewrite lookup_append_at. destruct (Str.eqb c k); [|reflexivity].
      destruct (lookup c d); simpl; [now rewrite <- app_assoc | reflexivity].
    + destruct (Str.eqb c k) eqn:Ec; [|reflexivity].
      apply str_eqb_eq in Ec. subst c.
      assert (E : lookup k d = None).
      { clear IH. induction d as [|[k' v] d IHd]; simpl in *; [reflexivity|].
        apply orb_false_iff in Hk as [-> Hk]. auto. }
      now rewrite E.
Qed.

(** The labels kept for a key are the groups of its rows, one entry per
    row, in the order the groups were created. *)
Lemma duplicates_labels (ac : list (str * str)) (c : str) :
  has_key c (duplicates_of ac) = true ->
  lookup c (duplicates_of ac)
  = Some (map snd (filter (fun cg => Str.eqb c (fst cg)) ac)).
Proof.
  intros H. unfold duplicates_of in *.
  rewrite has_key_fold_append in H. rewrite lookup_fold_append.
  induction (filter (fun kc => 1 <? snd kc) (Counter (map fst ac)))
    as [|[k n] l IH]; simpl in *; [discriminate|].
  destruct (Str.eqb c k); simpl; [reflexivity|]. auto.
Qed.

End Duplicates.

(* ================================================================= *)
(** ** The master set and the index set *)

Section MasterSet.

Lemma find_filter {A} (p q : A -> bool) (l : list A) :
  (forall x, p x = true -> q x = true) ->
  find p (filter q l) = find p l.
Proof.
  intros Hpq. induction l as [|h l IH]; simpl; [reflexivity|].
  destruct (q h) eqn:Q; simpl.
  - now rewrite IH.
  - destruct (p h) eqn:P; [|exact IH].
    apply Hpq in P. congruence.
Qed.

Lemma In_firstn {A} (n : nat) (l : list A) (x : A) :
  In x (firstn n l) -> In x l.
Proof.
  intros H. rewrite <- (firstn_skipn n l). apply in_or_app. now left.
Qed.

Lemma In_skipn {A} (n : nat) (l : list A) (x : A) :
  In x (skipn n l) -> In x l.
Proof.
  intros H. rewrite <- (firstn_skipn n l). apply in_or_app. now right.
Qed.

Lemma not_index_same_code (x r : Row) :
  code x = code r -> not_index x = not_index r.
Proof. unfold not_index, is_index. now intros ->. Qed.

(** C4 (dedup).  The master set holds at most one row per code; each
    row it holds is the first row with that code among the rows of the
    groups taken group after group in the order the groups were
    created; and every code of a stock in some group is represented.
    On the sample with GroupA and GroupB the row kept for 000001 is the
    one of GroupA. *)
Theorem master_set_first_occurrence (df : list Row) (a : Analysis) :
  analyze_stock_list df = Some a ->
  NoDup (map code (stock_df a)) /\
  (forall r,
      In r (stock_df a) ->
      find (fun x => Str.eqb (code x) (code r)) (all_stocks_of (groups a) df)
      = Some r) /\
  (forall x,
      In x (all_stocks_of (groups a) df) -> not_index x = true ->
      exists r, In r (stock_df a) /\ code r = code x) /\
  (groups a <> [] -> all_stocks_of (groups a) df = members (groups a)).
Proof.
  unfold analyze_stock_list. destruct df as [|r0 df0]; [discriminate|].
  intros H; injection H as <-. simpl groups. simpl stock_df.
  set (df := r0 :: df0).
  set (gd := group_dfs_of (st_groups (group_rows df))).
  repeat split.
  - apply drop_dup_from_NoDup.
  - intros r Hr. apply drop_dup_from_In in Hr as [Hin [_ Hf]].
    rewrite find_filter in Hf; [exact Hf|].
    intros x Hx. apply str_eqb_eq in Hx.
    rewrite (not_index_same_code _ _ Hx).
    apply filter_In in Hin. tauto.
  - intros x Hx Hn. apply drop_dup_from_covers.
    + apply filter_In. auto.
    + simpl. tauto.
  - apply all_stocks_members.
Qed.

Lemma master_set_first_occurrence_witness :
  NoDup (map code (stock_df two_group_analysis)) /\
  find (fun x => Str.eqb (code x) (lit "000001"))
       (all_stocks_of (groups two_group_analysis) two_group_df)
  = Some (mkRow 1 (lit "000001") (lit "AAA") 10 5).
Proof.
  destruct (master_set_first_occurrence two_group_df two_group_analysis eq_refl)
    as [H1 [H2 _]].
  split; [exact H1|].
  apply (H2 (mkRow 1 (lit "000001") (lit "AAA") 10 5)).
  simpl. auto.
Defined.

Lemma rstrip_head (x : char) (t : str) :
  isspace x = false -> exists t', rstrip (x :: t) = x :: t'.
Proof.
  intros Hx. unfold rstrip. simpl rev.
  destruct (dropwhile_keeps isspace (rev t) x [] Hx) as [pre' ->].
  exists (rev pre'). rewrite rev_app_distr. reflexivity.
Qed.

(** A code that starts with 99 belongs to a data row. *)
Lemma index_code_is_data (c : str) :
  startswith s_99 c = true -> is_marker_code (strip c) = false.
Proof.
  intros H. apply startswith_spec in H as [post ->].
  destruct (rstrip_head 57%N (57%N :: post) eq_refl) as [t' E].
  unfold strip.
  replace (rstrip (lstrip (s_99 ++ post))) with (57%N :: t')
    by (symmetry; exact E).
  reflexivity.
Qed.

(** C5 (index exclusion).  A row of the frame whose code starts with 99
    is in the index set and nowhere else: not in the master set, not a
    key of [duplicates], in no group listing, and not in the top-5 or
    bottom-5 slices.  The index set holds rows of the frame with that
    prefix only. *)
Theorem index_rows_only_in_index_set (df : list Row) (a : Analysis) (r : Row) :
  analyze_stock_list df = Some a ->
  (In r df -> startswith s_99 (code r) = true ->
   In r (index_df a) /\
   ~ In r (stock_df a) /\
   has_key (code r) (duplicates a) = false /\
   (forall g l, In (g, l) (listings a) -> ~ In r l) /\
   ~ In r (top5 a) /\ ~ In r (bottom5 a)) /\
  (In r (index_df a) -> In r df /\ startswith s_99 (code r) = true).
Proof.
  unfold analyze_stock_list. destruct df as [|r0 df0]; [discriminate|].
  intros H; injection H as <-.
  cbn [groups index_df stock_df duplicates listings top5 bottom5].
  set (df := r0 :: df0).
  set (gd := group_dfs_of (st_groups (group_rows df))).
  assert (Hmaster : forall x,
             In x (drop_duplicates (filter not_index (all_stocks_of gd df))) ->
             not_index x = true).
  { intros x Hx. apply drop_dup_from_In in Hx as [Hx _].
    apply filter_In in Hx. tauto. }
  split.
  - intros Hin H99.
    assert (Hidx : not_index r = false).
    { unfold not_index, is_index. now rewrite H99. }
    destruct (proj2 (all_stocks_In df r) Hin (index_code_is_data _ H99))
      as [Hall _].
    fold gd in Hall.
    repeat split.
    + apply filter_In. split; [exact Hall | exact H99].
    + intros Hm. apply Hmaster in Hm. congruence.
    + destruct (has_key (code r) (duplicates_of (all_codes_of gd))) eqn:E;
        [|reflexivity].
      apply duplicates_key_counted, all_codes_In in E as [x [_ [Hn Hc]]].
      rewrite (not_index_same_code _ _ Hc) in Hn. congruence.
    + intros g l Hl Hr.
      destruct (listings_In _ _ _ _ Hl Hr) as [Hn _]. congruence.
    + intros Hm.
      apply (In_firstn 5 (drop_duplicates (filter not_index (all_stocks_of gd df))))
        in Hm.
      apply Hmaster in Hm. congruence.
    + intros Hm. apply in_rev in Hm. unfold tail_n in Hm.
      apply In_skipn, Hmaster in Hm. congruence.
  - intros Hi. apply filter_In in Hi as [Hall H99].
    split; [|exact H99].
    exact (proj1 (all_stocks_In df r) Hall).
Qed.

Lemma index_rows_only_in_index_set_witness :
  In index_row (index_df with_index_analysis) /\
  ~ In index_row (stock_df with_index_analysis) /\
  has_key (lit "990001") (duplicates with_index_analysis) = false.
Proof.
  destruct (index_rows_only_in_index_set
              with_index_df with_index_analysis index_row eq_refl)
    as [H _].
  destruct H as [H1 [H2 [H3 _]]].
  - simpl. auto.
  - reflexivity.
  - exact (conj H1 (conj H2 H3)).
Defined.

End MasterSet.

(* ================================================================= *)
(** ** Where the report departs from its headings *)

Section Departures.

Open Scope float_scope.

(** C1 at a failing input.  [duplicates] is built from the number of
    rows a code has, not from the number of groups: a code listed twice
    in the only group is reported as picked by several formulas, with
    the label sequence GroupA, GroupA. *)
Theorem duplicates_counts_rows_not_groups :
  option_map (fun a => map fst (groups a))
             (analyze_stock_list repeated_in_group_df)
  = Some [lit "GroupA"] /\
  option_map duplicates (analyze_stock_list repeated_in_group_df)
  = Some [(lit "000001", [lit "GroupA"; lit "GroupA"])].
Proof. split; reflexivity. Qed.

(** C2 at a failing input.  The master set is never sorted: the slice
    printed as the five largest rises is the first five rows of the
    master set, here the rises 1 to 5 while 6 is left out, and the slice
    printed as the five largest falls is the last five rows reversed.
    The group listing of the same rows is sorted. *)
Theorem top5_is_head_of_unsorted_master_set :
  option_map (fun a => map change (stock_df a)) (analyze_stock_list rising_df)
  = Some [1; 2; 3; 4; 5; 6] /\
  option_map (fun a => map change (top5 a)) (analyze_stock_list rising_df)
  = Some [1; 2; 3; 4; 5] /\
  option_map (fun a => map change (bottom5 a)) (analyze_stock_list rising_df)
  = Some [6; 5; 4; 3; 2] /\
  option_map (fun a => map (fun g => map change (snd g)) (listings a))
             (analyze_stock_list rising_df)
  = Some [[6; 5; 4; 3; 2; 1]].
Proof. repeat split; reflexivity. Qed.

(** In general the two slices are cut from the master set as it
    stands. *)
Lemma slices_of_master_set (df : list Row) (a : Analysis) :
  analyze_stock_list df = Some a ->
  top5 a = firstn 5 (stock_df a) /\
  bottom5 a = rev (tail_n 5 (stock_df a)).
Proof.
  unfold analyze_stock_list. destruct df; [discriminate|].
  intros H; injection H as <-. split; reflexivity.
Qed.

End Departures.

(* ================================================================= *)
(** ** [read_stock_list] *)

Section StockList.

Lemma remove_quote_cons (x : char) (s : str) :
  remove_quote (x :: s)
  = if N.eqb x c_quote then remove_quote s else x :: remove_quote s.
Proof. unfold remove_quote. simpl. now destruct (N.eqb x c_quote). Qed.

Lemma remove_eq_quote_cons2 (x y : char) (t : str) :
  remove_eq_quote (x :: y :: t)
  = if N.eqb x c_eq && N.eqb y c_quote then remove_eq_quote t
    else x :: remove_eq_quote (y :: t).
Proof. reflexivity. Qed.

Lemma unquoted_cons2 (x y : char) (t : str) :
  unquoted (x :: y :: t)
  = if N.eqb x c_quote then unquoted (y :: t)
    else if N.eqb x c_eq && N.eqb y c_quote then unquoted (y :: t)
         else x :: unquoted (y :: t).
Proof. reflexivity. Qed.

(** The two replacements of line 212 together delete every double
    quote and every equals sign that stands right before one. *)
Lemma clean_is_unquoted (s : str) :
  remove_quote (remove_eq_quote s) = unquoted s.
Proof.
  assert (H : remove_quote (remove_eq_quote s) = unquoted s /\
              forall x, remove_quote (remove_eq_quote (x :: s))
                        = unquoted (x :: s)).
  { induction s as [|y t [IH1 IH2]].
    - split; [reflexivity|]. intros x.
      change (remove_eq_quote [x]) with [x].
      rewrite remove_quote_cons. simpl.
      destruct (N.eqb x c_quote); [reflexivity|].
      now rewrite andb_false_r.
    - split; [apply IH2|]. intros x.
      rewrite remove_eq_quote_cons2, unquoted_cons2.
      destruct (N.eqb_spec x c_eq) as [-> | Hx].
      + change (N.eqb c_eq c_quote) with false. cbv iota. simpl andb.
        destruct (N.eqb y c_quote) eqn:Ey.
        * rewrite IH1. simpl. now rewrite Ey.
        * rewrite remove_quote_cons.
          change (N.eqb c_eq c_quote) with false. cbv iota.
          now rewrite IH2.
      + simpl andb. cbv iota. rewrite remove_quote_cons, IH2.
        reflexivity. }
  apply H.
Qed.

Lemma unquoted_no_quote (s : str) : ~ In c_quote (unquoted s).
Proof.
  induction s as [|x t IH]; simpl; [tauto|].
  destruct (N.eqb x c_quote) eqn:E; [exact IH|].
  destruct (N.eqb x c_eq && _); [exact IH|].
  simpl. intros [H | H]; [|tauto].
  apply N.eqb_neq in E. congruence.
Qed.

(** The wrapper of a code goes and the code stays. *)
Lemma unquoted_wrapper (s : str) :
  ~ In c_quote s -> ~ In c_eq s -> unquoted (quoted s) = s.
Proof.
  intros Hq He.
  assert (H : unquoted (s ++ [c_quote]) = s).
  { induction s as [|x t IH]; [reflexivity|]. simpl in *.
    destruct (N.eqb x c_quote) eqn:E1.
    { apply N.eqb_eq in E1. intuition congruence. }
    destruct (N.eqb x c_eq) eqn:E2.
    { apply N.eqb_eq in E2. intuition congruence. }
    simpl. rewrite IH; tauto. }
  unfold quoted. simpl. exact H.
Qed.

Lemma update_nth_other {A} (i j : nat) (g : A -> A) (l : list A) :
  i <> j -> nth_error (update_nth i g l) j = nth_error l j.
Proof.
  revert i j; induction l as [|x l IH]; intros [|i] [|j] H; simpl; auto;
    try congruence.
Qed.

Lemma update_nth_same {A} (i : nat) (g : A -> A) (l : list A) (c : A) :
  nth_error l i = Some c -> nth_error (update_nth i g l) i = Some (g c).
Proof.
  revert i; induction l as [|x l IH]; intros [|i]; simpl; try discriminate.
  - congruence.
  - apply IH.
Qed.

(** Cleaning keeps a leading [#]. *)
Lemma unquoted_hash (s : str) :
  startswith s_hash s = true -> startswith s_hash (unquoted s) = true.
Proof.
  intros H. apply startswith_spec in H as [post ->].
  destruct post; reflexivity.
Qed.

Lemma clean_code_cell_hash (v : pandas) (c : cell) :
  startswith s_hash (astype_str c) = true ->
  startswith s_hash (astype_str (clean_code_cell v c)) = true.
Proof.
  intros H.
  assert (Hc : startswith s_hash (astype_str (clean_code c)) = true).
  { unfold clean_code. simpl. rewrite clean_is_unquoted.
    now apply unquoted_hash. }
  destruct v; simpl; [exact Hc|].
  destruct (is_missing c); [exact H | exact Hc].
Qed.

Lemma keep_row_clean (v : pandas) (cols : list str) (r : list cell) :
  keep_row r = false -> keep_row (clean_code_in_row v cols r) = false.
Proof.
  unfold clean_code_in_row.
  destruct (index_of s_code cols) as [[|i]|]; auto;
    destruct r as [|c r]; simpl; auto.
  rewrite !negb_false_iff. apply clean_code_cell_hash.
Qed.

Lemma keep_row_clean_other (v : pandas) (cols : list str) (r : list cell) :
  index_of s_code cols <> Some 0 ->
  keep_row (clean_code_in_row v cols r) = keep_row r.
Proof.
  unfold clean_code_in_row.
  destruct (index_of s_code cols) as [[|i]|]; [congruence | | reflexivity].
  intros _. destruct r; reflexivity.
Qed.

(** C10, as stated, fails: in a frame whose first column is 代码, a row
    whose code reads as an equals sign and the quoted text [#x] does not
    start with [#] as read, yet it is dropped, because the test for [#]
    comes after the cleaning of the code. *)
Lemma hash_in_wrapper_counterexample :
  In hash_wrapped_row (rows hash_wrapped_frame) /\
  keep_row hash_wrapped_row = true /\
  read_stock_list Pandas2 hash_wrapped_export
  = Some (mkFrame [s_code; s_name] []) /\
  read_stock_list Pandas3 hash_wrapped_export
  = Some (mkFrame [s_code; s_name] []).
Proof. repeat split. simpl. auto. Qed.

(** C10, amended.  When [read_stock_list] returns a frame, it is the
    frame [read_csv] gave with its labels stripped and then: in the 代码
    column every value that is not missing is its text with the double
    quotes and the equals signs before them deleted, and a missing value
    becomes the text nan before pandas 3 and stays as it is from pandas
    3 on; in every other column the values are the ones read; the rows
    returned are, in order, exactly those whose first value does not
    start with [#] once the code is cleaned.  So a row that starts with
    [#] as read is never returned, a row whose first value is not a code
    is tested as read, and every row that passes the test after the
    cleaning is returned. *)
Theorem read_stock_list_cleans (v : pandas) (f : File) (out : DataFrame) :
  read_stock_list v f = Some out ->
  exists df,
    read_csv f Tab Gbk 0 true = Returned df /\
    columns out = map strip (columns df) /\
    rows out
    = filter keep_row (map (clean_code_in_row v (columns out)) (rows df)) /\
    (forall r i c,
        index_of s_code (columns out) = Some i ->
        nth_error r i = Some c ->
        is_missing c = false ->
        nth_error (clean_code_in_row v (columns out) r) i
        = Some (Text (unquoted (astype_str c)))) /\
    (forall r i c,
        index_of s_code (columns out) = Some i ->
        nth_error r i = Some c ->
        is_missing c = true ->
        nth_error (clean_code_in_row v (columns out) r) i
        = Some (match v with Pandas2 => Text s_nan | Pandas3 => c end)) /\
    (forall r j,
        index_of s_code (columns out) <> Some j ->
        nth_error (clean_code_in_row v (columns out) r) j = nth_error r j) /\
    (forall r,
        In r (rows df) -> keep_row r = false ->
        ~ In (clean_code_in_row v (columns out) r) (rows out)) /\
    (forall r,
        In r (rows df) ->
        keep_row (clean_code_in_row v (columns out) r) = true ->
        In (clean_code_in_row v (columns out) r) (rows out)) /\
    (forall r,
        index_of s_code (columns out) <> Some 0 ->
        keep_row (clean_code_in_row v (columns out) r) = keep_row r).
Proof.
  unfold read_stock_list.
  destruct (gbk_readlines f) as [lines| |]; try discriminate.
  destruct (read_csv f Tab Gbk 0 true) as [df| |]; try discriminate.
  unfold clean_code_column.
  destruct (1 <? count_label s_code (map strip (columns df)));
    [discriminate|].
  destruct (map strip (columns df)) as [|c0 cols] eqn:Ec; [discriminate|].
  intros H; injection H as <-. simpl columns. simpl rows.
  exists df. rewrite <- Ec.
  split; [reflexivity|]. split; [reflexivity|]. split; [reflexivity|].
  split; [|split; [|split; [|split; [|split]]]].
  - intros r i c Hi Hc Hm. unfold clean_code_in_row. rewrite Hi. cbv iota.
    rewrite (update_nth_same _ _ _ _ Hc). f_equal.
    unfold clean_code_cell. rewrite Hm.
    destruct v; unfold clean_code; now rewrite clean_is_unquoted.
  - intros r i c Hi Hc Hm. unfold clean_code_in_row. rewrite Hi. cbv iota.
    rewrite (update_nth_same _ _ _ _ Hc). f_equal.
    unfold clean_code_cell. rewrite Hm. destruct v; [|reflexivity].
    destruct c as [t|repr]; [discriminate|]. simpl in Hm.
    apply str_eqb_eq in Hm. subst repr. reflexivity.
  - intros r j Hj. unfold clean_code_in_row.
    destruct (index_of s_code (map strip (columns df))) as [i|];
      [|reflexivity].
    apply update_nth_other. congruence.
  - intros r Hr Hk Hin. apply filter_In in Hin as [_ Hin].
    rewrite keep_row_clean in Hin by exact Hk. discriminate.
  - intros r Hr Hk. apply filter_In. split; [|exact Hk].
    now apply in_map.
  - intros r H0. now apply keep_row_clean_other.
Qed.

Lemma read_stock_list_cleans_witness :
  exists df,
    read_csv watchlist_export Tab Gbk 0 true = Returned df /\
    [s_code; s_name] = map strip (columns df) /\
    [[Text (lit "000001"); Text (lit "AAA")]]
    = filter keep_row
        (map (clean_code_in_row Pandas3 [s_code; s_name]) (rows df)).
Proof.
  destruct (read_stock_list_cleans
              Pandas3 watchlist_export
              (mkFrame [s_code; s_name]
                       [[Text (lit "000001"); Text (lit "AAA")]])
              eq_refl) as [df [H1 [H2 [H3 _]]]].
  exists df. exact (conj H1 (conj H2 H3)).
Defined.

End StockList.

(* ================================================================= *)
(** ** Stripping and the column normalizer *)

Section Normalizer.

Lemma dropwhile_fixed (p : char -> bool) (s : str) :
  match s with [] => True | c :: _ => p c = false end ->
  dropwhile p s = s.
Proof. destruct s as [|c t]; simpl; [reflexivity | now intros ->]. Qed.

Lemma dropwhile_head (p : char -> bool) (s : str) :
  match dropwhile p s with [] => True | c :: _ => p c = false end.
Proof.
  induction s as [|c t IH]; simpl; [exact I|].
  destruct (p c) eqn:E; [exact IH | exact E].
Qed.

(** A stripped string neither starts nor ends with whitespace. *)
Lemma strip_ends (s : str) :
  match strip s with [] => True | c :: _ => isspace c = false end /\
  match rev (strip s) with [] => True | c :: _ => isspace c = false end.
Proof.
  unfold strip, rstrip. split.
  - pose proof (dropwhile_head isspace s) as Hl. fold (lstrip s) in Hl.
    destruct (dropwhile_suffix isspace (rev (lstrip s))) as [b Hb].
    assert (E : lstrip s = rev (dropwhile isspace (rev (lstrip s))) ++ rev b).
    { rewrite <- rev_app_distr, <- Hb. now rewrite rev_involutive. }
    destruct (rev (dropwhile isspace (rev (lstrip s)))) as [|c t];
      [exact I|].
    rewrite E in Hl. exact Hl.
  - rewrite rev_involutive. apply dropwhile_head.
Qed.

Lemma strip_fixed (s : str) :
  match s with [] => True | c :: _ => isspace c = false end ->
  match rev s with [] => True | c :: _ => isspace c = false end ->
  strip s = s.
Proof.
  intros H1 H2. unfold strip, rstrip, lstrip.
  rewrite (dropwhile_fixed isspace s H1).
  rewrite (dropwhile_fixed isspace (rev s) H2).
  apply rev_involutive.
Qed.

Lemma strip_idempotent (s : str) : strip (strip s) = strip s.
Proof. destruct (strip_ends s). now apply strip_fixed. Qed.

Lemma clean_label_cases (col : str) :
  (In (strip col) (map fst col_mapping) /\
   In (clean_label col) (map snd col_mapping)) \/
  (~ In (strip col) (map fst col_mapping) /\ clean_label col = strip col).
Proof.
  unfold clean_label.
  destruct (lookup (strip col) col_mapping) as [v|] eqn:E.
  - left. revert E. unfold col_mapping. simpl.
    repeat match goal with
           | |- context [Str.eqb ?a ?b] =>
               destruct (Str.eqb a b) eqn:?
           end;
      try discriminate; intros H; injection H as <-;
      repeat match goal with
             | H : Str.eqb _ _ = true |- _ => apply str_eqb_eq in H
             end;
      split; simpl; auto 10.
  - right. split; [|reflexivity]. intros Hin.
    apply has_key_In in Hin. revert E Hin. unfold col_mapping. simpl.
    repeat match goal with
           | |- context [Str.eqb ?a ?b] =>
               destruct (Str.eqb a b)
           end; simpl; congruence.
Qed.

End Normalizer.

Section NormalizerProperties.

Lemma lookup_None {V} (k : str) (d : list (str * V)) :
  ~ In k (map fst d) -> lookup k d = None.
Proof.
  intros H. destruct (lookup k d) as [v|] eqn:E; [|reflexivity].
  elim H. clear H. induction d as [|[k' w] d IH]; simpl in *; [discriminate|].
  destruct (Str.eqb k k') eqn:Ek.
  - left. symmetry. now apply str_eqb_eq.
  - right. auto.
Qed.

Lemma canonical_label_fixed (v : str) :
  In v (map snd col_mapping) ->
  strip v = v /\ ~ In v (map fst col_mapping).
Proof.
  simpl. intros H.
  repeat (destruct H as [<- | H]; [split; [reflexivity|] |]);
    try (simpl; intros F;
         repeat (destruct F as [F | F]; [discriminate F|]); exact F).
  destruct H.
Qed.

Lemma clean_label_idempotent (col : str) :
  clean_label (clean_label col) = clean_label col.
Proof.
  destruct (clean_label_cases col) as [[_ Hv] | [Hk E]].
  - destruct (canonical_label_fixed _ Hv) as [Hs Hn].
    unfold clean_label at 1. rewrite Hs. now rewrite (lookup_None _ _ Hn).
  - rewrite E. unfold clean_label. rewrite strip_idempotent.
    now rewrite (lookup_None _ _ Hk).
Qed.

(** Normalizing the labels twice is normalizing them once. *)
Theorem clean_column_names_idempotent (df : DataFrame) :
  clean_column_names (clean_column_names df) = clean_column_names df.
Proof.
  unfold clean_column_names. simpl. f_equal.
  rewrite map_map. apply map_ext. intros col. apply clean_label_idempotent.
Qed.

(** After [clean_column_names] no label is one of the six terminal
    labels any more and no label has whitespace around it; the frame
    has as many columns as before and the same rows. *)
Theorem clean_column_names_canonical (df : DataFrame) :
  length (columns (clean_column_names df)) = length (columns df) /\
  rows (clean_column_names df) = rows df /\
  forall label,
    In label (columns (clean_column_names df)) ->
    ~ In label (map fst col_mapping) /\ strip label = label.
Proof.
  unfold clean_column_names. simpl columns. simpl rows.
  split; [apply length_map|]. split; [reflexivity|].
  intros label Hin. apply in_map_iff in Hin as [col [<- _]].
  destruct (clean_label_cases col) as [[_ Hv] | [Hk E]].
  - destruct (canonical_label_fixed _ Hv). auto.
  - rewrite E. split; [exact Hk | apply strip_idempotent].
Qed.

Lemma clean_column_names_canonical_witness :
  ~ In (lit "close") (map fst col_mapping) /\ strip (lit "close") = lit "close".
Proof.
  apply (proj2 (proj2 (clean_column_names_canonical padded_kline_frame))).
  simpl. auto.
Defined.

End NormalizerProperties.

(* ================================================================= *)
(** ** [read_tdx_export]: the other branches *)

Section ExportReader.

Lemma try_encodings_info (f : File) (sp : sep) (encs : list encoding) :
  snd (fst (try_encodings f sp encs)) = None.
Proof.
  induction encs as [|enc rest IH]; simpl; [reflexivity|].
  destruct (read_csv f sp enc 0 false); simpl; try reflexivity.
  destruct (try_encodings f sp rest) as [r tr]. exact IH.
Qed.

Lemma try_encodings_frame (f : File) (sp : sep) (encs : list encoding)
      (df : DataFrame) :
  fst (fst (try_encodings f sp encs)) = Some df <->
  exists before enc after,
    encs = before ++ enc :: after /\
    (forall e, In e before -> read_csv f sp e 0 false = DecodeError) /\
    read_csv f sp enc 0 false = Returned df.
Proof.
  induction encs as [|enc rest IH]; simpl.
  - split; [discriminate|].
    intros [before [e [after [H _]]]]. now destruct before.
  - destruct (read_csv f sp enc 0 false) as [d| |] eqn:R; simpl.
    + split.
      * intros H; injection H as ->. exists [], enc, rest. simpl.
        repeat split; [tauto | exact R].
      * intros [[|b before] [e [after [H [Hb He]]]]]; simpl in H;
          injection H as <- _.
        -- congruence.
        -- rewrite (Hb enc (or_introl eq_refl)) in R. discriminate.
    + destruct (try_encodings f sp rest) as [r tr]. simpl in *.
      rewrite IH. split.
      * intros [before [e [after [-> [Hb He]]]]].
        exists (enc :: before), e, after. repeat split; auto.
        intros x [<- | Hx]; auto.
      * intros [[|b before] [e [after [H [Hb He]]]]]; simpl in H;
          injection H as <- H.
        -- congruence.
        -- exists before, e, after. repeat split; auto.
           intros x Hx. apply Hb. now right.
    + split; [discriminate|].
      intros [[|b before] [e [after [H [Hb He]]]]]; simpl in H;
        injection H as <- _.
      * congruence.
      * rewrite (Hb enc (or_introl eq_refl)) in R. discriminate.
Qed.

Lemma try_encodings_trace (f : File) (sp : sep) (encs : list encoding) :
  exists tried rest,
    encs = tried ++ rest /\
    (encs <> [] -> tried <> []) /\
    snd (try_encodings f sp encs)
    = map (fun enc => EvReadCsv sp enc 0 false) tried.
Proof.
  induction encs as [|enc more IH]; simpl.
  - exists [], []. repeat split. congruence.
  - destruct IH as [tried [rest [E [_ T]]]].
    destruct (read_csv f sp enc 0 false) as [d| |]; simpl.
    + exists [enc], more. repeat split. discriminate.
    + destruct (try_encodings f sp more) as [r tr]. simpl in *.
      exists (enc :: tried), rest. rewrite E, T. repeat split. discriminate.
    + exists [enc], more. repeat split. discriminate.
Qed.

(** Without a file, or with a suffix other than .csv, .txt, .xls and
    .xlsx, [read_tdx_export] gives nothing and calls no reader. *)
Theorem read_tdx_export_not_attempted (suffix : str) (f : File) :
  f_exists f = false \/
  (suffix <> s_csv /\ suffix <> s_txt /\ suffix <> s_xls /\ suffix <> s_xlsx) ->
  read_tdx_export suffix f = ((None, None), []).
Proof.
  unfold read_tdx_export. intros [-> | [H1 [H2 [H3 H4]]]]; [reflexivity|].
  apply str_eqb_neq in H1, H2, H3, H4. rewrite H1, H2, H3, H4.
  now destruct (negb (f_exists f)).
Qed.

Lemma read_tdx_export_not_attempted_witness :
  read_tdx_export (lit ".pdf") text_xls_file = ((None, None), []).
Proof.
  apply (read_tdx_export_not_attempted (lit ".pdf") text_xls_file).
  right. repeat split; discriminate.
Defined.

(** For a .csv or .txt file the frame returned is the one [read_csv]
    gives under the first encoding of GBK, UTF-8, GB2312 that does not
    raise a decoding error, and a frame is returned in no other case: an
    encoding is reached only when every earlier one raised a decoding
    error, and any other exception ends the attempt. *)
Theorem delimited_first_decodable
        (suffix : str) (sp : sep) (f : File) (df : DataFrame) :
  (suffix = s_csv /\ sp = Comma) \/ (suffix = s_txt /\ sp = Tab) ->
  f_exists f = true ->
  (fst (fst (read_tdx_export suffix f)) = Some df <->
   exists before enc after,
     [Gbk; Utf8; Gb2312] = before ++ enc :: after /\
     (forall e, In e before -> read_csv f sp e 0 false = DecodeError) /\
     read_csv f sp enc 0 false = Returned df).
Proof.
  intros Hs He.
  assert (E : read_tdx_export suffix f
              = try_encodings f sp [Gbk; Utf8; Gb2312]).
  { unfold read_tdx_export. rewrite He.
    destruct Hs as [[-> ->] | [-> ->]]; reflexivity. }
  rewrite E. apply try_encodings_frame.
Qed.

Lemma delimited_first_decodable_witness :
  fst (fst (read_tdx_export s_csv utf8_csv_file)) = Some kline_frame.
Proof.
  apply (proj2 (delimited_first_decodable
                  s_csv Comma utf8_csv_file kline_frame
                  (or_introl (conj eq_refl eq_refl)) eq_refl)).
  exists [Gbk], Utf8, [Gb2312]. split; [reflexivity|]. split.
  - intros e [<- | []]. reflexivity.
  - reflexivity.
Defined.

(** For a .csv or .txt file the only calls are [read_csv] calls with
    the file's separator and no skipped row, at least one and at most
    three, in the order GBK, UTF-8, GB2312; the file is never opened as
    text nor read as a spreadsheet, and no metadata is returned. *)
Theorem delimited_calls (suffix : str) (sp : sep) (f : File) :
  (suffix = s_csv /\ sp = Comma) \/ (suffix = s_txt /\ sp = Tab) ->
  f_exists f = true ->
  snd (fst (read_tdx_export suffix f)) = None /\
  exists tried rest,
    [Gbk; Utf8; Gb2312] = tried ++ rest /\ tried <> [] /\
    snd (read_tdx_export suffix f)
    = map (fun enc => EvReadCsv sp enc 0 false) tried.
Proof.
  intros Hs He.
  assert (E : read_tdx_export suffix f
              = try_encodings f sp [Gbk; Utf8; Gb2312]).
  { unfold read_tdx_export. rewrite He.
    destruct Hs as [[-> ->] | [-> ->]]; reflexivity. }
  rewrite E. split; [apply try_encodings_info|].
  destruct (try_encodings_trace f sp [Gbk; Utf8; Gb2312])
    as [tried [rest [H1 [H2 H3]]]].
  exists tried, rest. repeat split; auto. apply H2. discriminate.
Qed.

Lemma delimited_calls_witness :
  snd (fst (read_tdx_export s_csv utf8_csv_file)) = None /\
  exists tried rest,
    [Gbk; Utf8; Gb2312] = tried ++ rest /\ tried <> [] /\
    snd (read_tdx_export s_csv utf8_csv_file)
    = map (fun enc => EvReadCsv Comma enc 0 false) tried.
Proof.
  exact (delimited_calls s_csv Comma utf8_csv_file
           (or_introl (conj eq_refl eq_refl)) eq_refl).
Defined.

(** Metadata never comes without a frame: when no frame is returned the
    metadata is [None] too, even if the identity line was recognised
    before both readings of an .xls file raised. *)
Theorem no_metadata_without_frame (suffix : str) (f : File) :
  fst (fst (read_tdx_export suffix f)) = None ->
  snd (fst (read_tdx_export suffix f)) = None.
Proof.
  unfold read_tdx_export.
  destruct (negb (f_exists f)); [reflexivity|].
  destruct (Str.eqb suffix s_csv); [intros _; apply try_encodings_info|].
  destruct (Str.eqb suffix s_txt); [intros _; apply try_encodings_info|].
  destruct (Str.eqb suffix s_xls || Str.eqb suffix s_xlsx); [|reflexivity].
  destruct (read_xls_text f) as [[[df|] info] tr]; simpl; [discriminate|].
  destruct (read_excel f); simpl; [discriminate | reflexivity | reflexivity].
Qed.

Lemma no_metadata_without_frame_witness :
  snd (fst (read_tdx_export s_xls unreadable_xls_file)) = None.
Proof.
  apply (no_metadata_without_frame s_xls unreadable_xls_file). reflexivity.
Defined.

Lemma header_index_from_spec (k : nat) (lines : list str) :
  ((forall l, In l lines -> contains s_time l = false) /\
   header_index_from k lines = 0) \/
  (exists j h,
      nth_error lines j = Some h /\ contains s_time h = true /\
      (forall i l, i < j -> nth_error lines i = Some l ->
                   contains s_time l = false) /\
      header_index_from k lines = k + j).
Proof.
  revert k; induction lines as [|l0 lines IH]; intros k; simpl.
  - left. split; [tauto | reflexivity].
  - destruct (contains s_time l0) eqn:E.
    + right. exists 0, l0.
      split; [reflexivity|]. split; [exact E|].
      split; [intros i l Hi; lia | lia].
    + destruct (IH (S k)) as [[Hn H0] | [j [h [Hj [Hh [Hb Hr]]]]]].
      * left. split; [|exact H0]. intros l [<- | Hl]; auto.
      * right. exists (S j), h.
        split; [exact Hj|]. split; [exact Hh|]. split; [|lia].
        intros [|i] l Hi Hl; simpl in Hl.
        -- congruence.
        -- apply (Hb i l); [lia | exact Hl].
Qed.

(** The header row is the first line that contains 时间: that line is
    in the file and no line above it contains 时间.  When no line does,
    the header row is row 0. *)
Theorem header_index_first (lines : list str) :
  ((exists l, In l lines /\ contains s_time l = true) ->
   exists h,
     nth_error lines (header_index lines) = Some h /\
     contains s_time h = true /\
     forall i l, i < header_index lines -> nth_error lines i = Some l ->
                 contains s_time l = false) /\
  ((forall l, In l lines -> contains s_time l = false) ->
   header_index lines = 0).
Proof.
  unfold header_index.
  destruct (header_index_from_spec 0 lines)
    as [[Hn H0] | [j [h [Hj [Hh [Hb Hr]]]]]].
  - split; [|auto]. intros [l [Hl Hc]]. rewrite (Hn l Hl) in Hc.
    discriminate.
  - simpl in Hr. rewrite Hr. split.
    + intros _. exists h. auto.
    + intros Hn. apply nth_error_In in Hj. rewrite (Hn h Hj) in Hh.
      discriminate.
Qed.

Lemma header_index_first_witness :
  exists h,
    nth_error [pingan_line; s_time ++ lit " close"; lit "2024 10.5"]
              (header_index
                 [pingan_line; s_time ++ lit " close"; lit "2024 10.5"])
    = Some h /\
    contains s_time h = true /\
    forall i l,
      i < header_index [pingan_line; s_time ++ lit " close"; lit "2024 10.5"] ->
      nth_error [pingan_line; s_time ++ lit " close"; lit "2024 10.5"] i
      = Some l ->
      contains s_time l = false.
Proof.
  apply (proj1 (header_index_first
                  [pingan_line; s_time ++ lit " close"; lit "2024 10.5"])).
  exists (s_time ++ lit " close"). split; [simpl; auto | reflexivity].
Defined.

(** When the text reading of an .xls or .xlsx file recognised the first
    line but [read_csv] raised, a frame [read_excel] gives is returned
    as it is, with the metadata taken from the text's first line; when
    [read_excel] raises as well, nothing is returned. *)
Theorem xls_excel_fallback_result
        (suffix : str) (f : File) (l0 : str) (rest : list str) :
  suffix = s_xls \/ suffix = s_xlsx ->
  f_exists f = true ->
  gbk_readlines f = Returned (l0 :: rest) ->
  (forall df, read_csv f Tab Gbk (header_index (l0 :: rest)) true
              <> Returned df) ->
  (forall df, read_excel f = Returned df ->
              fst (read_tdx_export suffix f) = (Some df, re_search (strip l0))) /\
  ((forall df, read_excel f <> Returned df) ->
   fst (read_tdx_export suffix f) = (None, None)).
Proof.
  intros Hs He Hl Hcsv.
  assert (E : read_xls_text f
              = (None, re_search (strip l0),
                 [EvOpenGbk;
                  EvReadCsv Tab Gbk (header_index (l0 :: rest)) true])).
  { unfold read_xls_text. rewrite Hl.
    destruct (read_csv f Tab Gbk (header_index (l0 :: rest)) true) as [d| |];
      [now elim (Hcsv d) | reflexivity | reflexivity]. }
  assert (R : read_tdx_export suffix f =
              match read_excel f with
              | Returned df =>
                  ((Some df, re_search (strip l0)),
                   [EvOpenGbk;
                    EvReadCsv Tab Gbk (header_index (l0 :: rest)) true]
                     ++ [EvReadExcel])
              | _ => (nothing,
                      [EvOpenGbk;
                       EvReadCsv Tab Gbk (header_index (l0 :: rest)) true]
                        ++ [EvReadExcel])
              end).
  { unfold read_tdx_export. rewrite He, E. simpl negb. cbv iota.
    destruct Hs as [-> | ->]; reflexivity. }
  rewrite R. split.
  - intros df ->. reflexivity.
  - intros H. destruct (read_excel f) as [d| |];
      [now elim (H d) | reflexivity | reflexivity].
Qed.

Lemma xls_excel_fallback_result_witness :
  fst (read_tdx_export s_xls excel_only_file)
  = (Some kline_frame,
     Some (mkInfo [0x5E73; 0x5B89; 0x94F6; 0x884C]%N (lit "000001"))).
Proof.
  refine (proj1 (xls_excel_fallback_result
                   s_xls excel_only_file pingan_line []
                   (or_introl eq_refl) eq_refl eq_refl _)
                kline_frame eq_refl).
  intros df H. discriminate H.
Defined.

End ExportReader.

(* ================================================================= *)
(** ** [read_stock_list]: failure and the frame returned *)

Section StockListFrame.

Lemma unquoted_fixed (s : str) : ~ In c_quote s -> unquoted s = s.
Proof.
  induction s as [|x t IH]; simpl; [reflexivity|]. intros H.
  destruct (N.eqb_spec x c_quote) as [-> | Hx]; [tauto|].
  assert (Ht : match t with y :: _ => N.eqb y c_quote | [] => false end
               = false).
  { destruct t as [|y t']; [reflexivity|].
    apply N.eqb_neq. intros ->. apply H. right. now left. }
  rewrite Ht, andb_false_r. f_equal. apply IH. tauto.
Qed.

(** Cleaning leaves a code without double quotes as it is, turns a
    code wrapped as an equals sign and a quoted text into that text, and
    cleaning a cleaned cell changes nothing. *)
Theorem clean_code_wrapper (s : str) :
  ~ In c_quote s ->
  clean_code (Text s) = Text s /\
  (~ In c_eq s -> clean_code (Text (quoted s)) = Text s) /\
  forall c, clean_code (clean_code c) = clean_code c.
Proof.
  intros Hq. unfold clean_code. simpl astype_str.
  rewrite !clean_is_unquoted. split; [|split].
  - now rewrite unquoted_fixed.
  - intros He. now rewrite unquoted_wrapper.
  - intros c. rewrite !clean_is_unquoted.
    rewrite (unquoted_fixed (unquoted (astype_str c))); [reflexivity|].
    apply unquoted_no_quote.
Qed.

Lemma clean_code_wrapper_witness :
  clean_code (Text (quoted (lit "600519"))) = Text (lit "600519").
Proof.
  apply (proj1 (proj2 (clean_code_wrapper (lit "600519")
                         ltac:(simpl; intuition discriminate)))).
  simpl. intuition discriminate.
Defined.

(** [read_stock_list] gives up exactly when the file cannot be read as
    GBK text, when [read_csv] raises, when the frame has no column, or
    when two labels are 代码 once stripped. *)
Theorem read_stock_list_fails_iff (v : pandas) (f : File) :
  read_stock_list v f = None <->
  (forall lines, gbk_readlines f <> Returned lines) \/
  (forall df, read_csv f Tab Gbk 0 true <> Returned df) \/
  (exists df,
      read_csv f Tab Gbk 0 true = Returned df /\
      (columns df = [] \/ 2 <= count_label s_code (map strip (columns df)))).
Proof.
  unfold read_stock_list, clean_code_column.
  destruct (gbk_readlines f) as [lines| |].
  - destruct (read_csv f Tab Gbk 0 true) as [df| |].
    + destruct (Nat.ltb_spec 1 (count_label s_code (map strip (columns df))))
        as [Hc | Hc].
      * split; [intros _ | reflexivity].
        right; right. exists df. split; [reflexivity | right; lia].
      * destruct (columns df) as [|c0 cols] eqn:Ec; simpl map.
        -- split; [intros _ | reflexivity].
           right; right. exists df. split; [reflexivity | now left].
        -- split; [discriminate|].
           intros [H | [H | [d [Hd [H | H]]]]].
           ++ now elim (H lines).
           ++ now elim (H df).
           ++ injection Hd as <-. congruence.
           ++ injection Hd as <-. rewrite Ec in H. lia.
    + split; [intros _ | reflexivity]. right; left. discriminate.
    + split; [intros _ | reflexivity]. right; left. discriminate.
  - split; [intros _ | reflexivity]. left. discriminate.
  - split; [intros _ | reflexivity]. left. discriminate.
Qed.

Lemma read_stock_list_fails_iff_witness :
  read_stock_list Pandas3 binary_file = None.
Proof.
  apply (proj2 (read_stock_list_fails_iff Pandas3 binary_file)).
  left. intros lines H. discriminate H.
Defined.

Lemma update_nth_same_inv {A} (i : nat) (g : A -> A) (l : list A) (c : A) :
  nth_error (update_nth i g l) i = Some c ->
  exists c0, nth_error l i = Some c0 /\ c = g c0.
Proof.
  revert i; induction l as [|x l IH]; intros [|i]; simpl; try discriminate.
  - intros H; injection H as <-. eauto.
  - apply IH.
Qed.

(** The frame [read_stock_list] returns has at least one column, its
    labels carry no surrounding whitespace, at most one of them is 代码,
    none of its rows starts with [#], and every cell under 代码 is text
    without a double quote or, from pandas 3 on, a missing value left
    as it was. *)
Theorem read_stock_list_frame (v : pandas) (f : File) (out : DataFrame) :
  read_stock_list v f = Some out ->
  columns out <> [] /\
  (forall label, In label (columns out) -> strip label = label) /\
  count_label s_code (columns out) <= 1 /\
  (forall r, In r (rows out) -> keep_row r = true) /\
  (forall r i c,
      In r (rows out) ->
      index_of s_code (columns out) = Some i ->
      nth_error r i = Some c ->
      (exists s, c = Text s /\ ~ In c_quote s) \/
      (v = Pandas3 /\ is_missing c = true)).
Proof.
  unfold read_stock_list, clean_code_column.
  destruct (gbk_readlines f) as [lines| |]; try discriminate.
  destruct (read_csv f Tab Gbk 0 true) as [df| |]; try discriminate.
  destruct (Nat.ltb_spec 1 (count_label s_code (map strip (columns df))))
    as [Hc | Hc]; [discriminate|].
  destruct (map strip (columns df)) as [|c0 cols] eqn:Ec; [discriminate|].
  intros H; injection H as <-. simpl columns. simpl rows.
  rewrite <- Ec. split; [rewrite Ec; discriminate|].
  split; [|split; [now rewrite Ec | split]].
  - intros label Hl. apply in_map_iff in Hl as [col [<- _]].
    apply strip_idempotent.
  - intros r Hr. apply filter_In in Hr. tauto.
  - intros r i c Hr Hi Hn.
    apply filter_In in Hr as [Hr _].
    apply in_map_iff in Hr as [r0 [<- _]].
    unfold clean_code_in_row in Hn. rewrite Hi in Hn.
    apply update_nth_same_inv in Hn as [c1 [_ ->]].
    assert (Htext : exists s, clean_code c1 = Text s /\ ~ In c_quote s).
    { unfold clean_code. rewrite clean_is_unquoted.
      eexists. split; [reflexivity | apply unquoted_no_quote]. }
    destruct v; simpl; [now left|].
    destruct (is_missing c1) eqn:Hm; [right; auto | now left].
Qed.

Lemma read_stock_list_frame_witness :
  (exists s, NonText s_nan = Text s /\ ~ In c_quote s) \/
  (Pandas3 = Pandas3 /\ is_missing (NonText s_nan) = true).
Proof.
  destruct (read_stock_list_frame
              Pandas3 missing_code_export
              (mkFrame [s_code; s_name]
                       [ [Text (lit "000001"); Text (lit "AAA")];
                         [NonText s_nan; Text (lit "GroupA")] ])
              eq_refl) as [_ [_ [_ [_ H]]]].
  apply (H [NonText s_nan; Text (lit "GroupA")] 0 (NonText s_nan)).
  - simpl. auto.
  - reflexivity.
  - reflexivity.
Defined.

End StockListFrame.

(* ================================================================= *)
(** ** The grouper: what the loop keeps *)

Section GrouperInvariants.

Lemma keys_append_at {V} (k : str) (x : V) (d : list (str * list V)) :
  map fst (append_at k x d) = map fst d.
Proof.
  induction d as [|[k' xs] d IH]; simpl; [reflexivity|].
  destruct (Str.eqb k k'); simpl; [reflexivity | now rewrite IH].
Qed.

Lemma keys_ensure_NoDup (k : str) (g : groups_t) :
  NoDup (map fst g) -> NoDup (map fst (ensure_group k g)).
Proof.
  intros H. unfold ensure_group. destruct (has_key k g) eqn:E; [exact H|].
  rewrite map_app. simpl. apply NoDup_app; repeat split; auto.
  - constructor; [tauto | constructor].
  - intros x Hx [<- | []]. apply has_key_In in Hx. congruence.
Qed.

Lemma group_step_keys_NoDup (st : GroupState) (r : Row) :
  NoDup (map fst (st_groups st)) ->
  NoDup (map fst (st_groups (group_step st r))).
Proof.
  intros H. unfold group_step.
  destruct (is_marker_code (strip (code r))).
  - destruct (accepted_label _); simpl; [now apply keys_ensure_NoDup | exact H].
  - simpl. rewrite keys_append_at. now apply keys_ensure_NoDup.
Qed.

Lemma fold_keys_NoDup (l : list Row) (st : GroupState) :
  NoDup (map fst (st_groups st)) ->
  NoDup (map fst (st_groups (fold_left group_step l st))).
Proof.
  revert st; induction l as [|r l IH]; intros st H; simpl; [exact H|].
  apply IH. now apply group_step_keys_NoDup.
Qed.

Lemma members_append_at_perm (k : str) (x : Row) (d : groups_t) :
  has_key k d = true ->
  Permutation (members (append_at k x d)) (x :: members d).
Proof.
  unfold members. induction d as [|[k' xs] d IH]; simpl; [discriminate|].
  destruct (Str.eqb k k'); simpl.
  - intros _. rewrite <- app_assoc. simpl.
    symmetry. apply Permutation_middle.
  - intros H. rewrite (IH H). symmetry.
    apply (Permutation_middle xs (concat (map snd d)) x).
Qed.

Lemma group_step_members_perm (st : GroupState) (r : Row) :
  Permutation
    (members (st_groups (group_step st r)))
    (filter (fun x => negb (is_marker_code (strip (code x)))) [r]
     ++ members (st_groups st)).
Proof.
  unfold group_step. simpl filter.
  destruct (is_marker_code (strip (code r))); simpl.
  - destruct (accepted_label _); simpl; [|reflexivity].
    now rewrite members_ensure.
  - rewrite members_append_at_perm by apply has_key_ensure.
    now rewrite members_ensure.
Qed.

Lemma fold_members_perm (l : list Row) (st : GroupState) :
  Permutation
    (members (st_groups (fold_left group_step l st)))
    (filter (fun x => negb (is_marker_code (strip (code x)))) l
     ++ members (st_groups st)).
Proof.
  revert st; induction l as [|r l IH]; intros st; [reflexivity|].
  change (fold_left group_step (r :: l) st)
    with (fold_left group_step l (group_step st r)).
  rewrite IH, group_step_members_perm.
  change (r :: l) with ([r] ++ l). rewrite filter_app.
  rewrite <- !app_assoc. rewrite app_assoc.
  rewrite (Permutation_app_comm
             (filter (fun x => negb (is_marker_code (strip (code x)))) l)).
  now rewrite <- app_assoc.
Qed.

Lemma keys_group_dfs_NoDup (g : groups_t) :
  NoDup (map fst g) -> NoDup (map fst (group_dfs_of g)).
Proof.
  unfold group_dfs_of. induction g as [|[k rs] g IH]; simpl; [auto|].
  intros H. inversion H as [|? ? Hk Hg]; subst.
  destruct rs; simpl; [now apply IH|].
  constructor; [|now apply IH].
  intros Hin. apply Hk. apply in_map_iff in Hin as [[k' v] [E Hin]].
  apply filter_In in Hin as [Hin _]. apply in_map_iff. now exists (k', v).
Qed.

(** Every data row of the frame is put into one group and only one,
    marker rows into none: the rows of the groups together are the data
    rows of the frame, each as often as the frame has it, and no label
    names two groups.  Naming a group again does not empty it. *)
Theorem every_data_row_in_one_group (df : list Row) (a : Analysis) :
  analyze_stock_list df = Some a ->
  NoDup (map fst (groups a)) /\
  Permutation
    (members (groups a))
    (filter (fun x => negb (is_marker_code (strip (code x)))) df) /\
  forall g rs, In (g, rs) (groups a) -> rs <> [].
Proof.
  unfold analyze_stock_list. destruct df as [|r0 df0]; [discriminate|].
  intros H; injection H as <-. cbn [groups].
  split; [|split].
  - apply keys_group_dfs_NoDup. apply fold_keys_NoDup. constructor.
  - rewrite members_group_dfs. unfold group_rows.
    rewrite fold_members_perm. simpl members. now rewrite app_nil_r.
  - intros g rs. apply group_dfs_nonempty.
Qed.

Lemma every_data_row_in_one_group_witness :
  NoDup (map fst (groups two_group_analysis)) /\
  Permutation
    (members (groups two_group_analysis))
    (filter (fun x => negb (is_marker_code (strip (code x)))) two_group_df).
Proof.
  destruct (every_data_row_in_one_group two_group_df two_group_analysis
              eq_refl) as [H1 [H2 _]].
  exact (conj H1 H2).
Defined.

End GrouperInvariants.

Section GroupLabels.

Lemma keys_ensure_In (k x : str) (g : groups_t) :
  In x (map fst (ensure_group k g)) -> x = k \/ In x (map fst g).
Proof.
  unfold ensure_group. destruct (has_key k g); [auto|].
  rewrite map_app, in_app_iff. simpl. intuition.
Qed.

Lemma fold_label_origin (df l : list Row) (st : GroupState) :
  (forall x, In x l -> In x df) ->
  label_origin df (st_current st) ->
  (forall k, In k (map fst (st_groups st)) -> label_origin df k) ->
  forall k, In k (map fst (st_groups (fold_left group_step l st))) ->
            label_origin df k.
Proof.
  revert st; induction l as [|r l IH]; intros st Hl Hc Hk; simpl; [exact Hk|].
  apply IH.
  - intros x Hx. apply Hl. now right.
  - unfold group_step. destruct (is_marker_code (strip (code r))) eqn:Em.
    + destruct (accepted_label _) eqn:Ea; simpl; [|exact Hc].
      split; [exact Ea|]. right. exists r. split; [apply Hl; now left|]. auto.
    + exact Hc.
  - intros k. unfold group_step.
    destruct (is_marker_code (strip (code r))) eqn:Em.
    + destruct (accepted_label _) eqn:Ea; simpl; [|apply Hk].
      intros H. apply keys_ensure_In in H as [-> | H]; [|now apply Hk].
      split; [exact Ea|]. right. exists r. split; [apply Hl; now left|]. auto.
    + simpl. rewrite keys_append_at. intros H.
      apply keys_ensure_In in H as [-> | H]; [exact Hc | now apply Hk].
Qed.

(** Every group is named 未分类 or by an accepted marker row of the
    frame; no group has an empty name or a name that contains 重复 or
    数据来源. *)
Theorem group_labels_accepted (df : list Row) (a : Analysis) (g : str) :
  analyze_stock_list df = Some a ->
  In g (map fst (groups a)) ->
  g <> [] /\
  (forall pre post, g <> pre ++ s_dup ++ post) /\
  (forall pre post, g <> pre ++ s_source ++ post) /\
  (g = s_unclassified \/
   exists m, In m df /\ is_marker_code (strip (code m)) = true /\
             group_name_of (strip (code m)) (strip (name m)) = g).
Proof.
  unfold analyze_stock_list. destruct df as [|r0 df0]; [discriminate|].
  intros H; injection H as <-. cbn [groups]. intros Hg.
  assert (Hin : In g (map fst (st_groups (group_rows (r0 :: df0))))).
  { apply in_map_iff in Hg as [[k rs] [E Hin]].
    apply filter_In in Hin as [Hin _]. apply in_map_iff. now exists (k, rs). }
  destruct (fold_label_origin (r0 :: df0) (r0 :: df0) init_state) with (k := g)
    as [Ha Ho]; auto.
  - split; [reflexivity | now left].
  - simpl. tauto.
  - unfold accepted_label in Ha.
    apply andb_true_iff in Ha as [Ha Hs].
    apply andb_true_iff in Ha as [Hn Hd].
    apply negb_true_iff in Hs, Hd.
    repeat split; auto.
    + intros ->. discriminate.
    + intros pre post E.
      assert (C : contains s_dup g = true)
        by (apply contains_spec; eauto).
      congruence.
    + intros pre post E.
      assert (C : contains s_source g = true)
        by (apply contains_spec; eauto).
      congruence.
Qed.

Lemma group_labels_accepted_witness :
  lit "GroupB" <> [] /\
  (forall pre post, lit "GroupB" <> pre ++ s_dup ++ post) /\
  (forall pre post, lit "GroupB" <> pre ++ s_source ++ post) /\
  (lit "GroupB" = s_unclassified \/
   exists m, In m two_group_df /\ is_marker_code (strip (code m)) = true /\
             group_name_of (strip (code m)) (strip (name m)) = lit "GroupB").
Proof.
  apply (group_labels_accepted two_group_df two_group_analysis (lit "GroupB")
           eq_refl).
  simpl. auto.
Defined.

End GroupLabels.

Section Placement.

Lemma lookup_app {V} (g : str) (d e : list (str * V)) :
  lookup g (d ++ e)
  = match lookup g d with Some v => Some v | None => lookup g e end.
Proof.
  induction d as [|[k v] d IH]; simpl; [reflexivity|].
  destruct (Str.eqb g k); [reflexivity | exact IH].
Qed.

Lemma has_key_lookup {V} (k : str) (d : list (str * V)) :
  has_key k d = true -> exists v, lookup k d = Some v.
Proof.
  induction d as [|[k' v] d IH]; simpl; [discriminate|].
  destruct (Str.eqb k k'); simpl; eauto.
Qed.

Lemma lookup_ensure_keeps (g k : str) (d : groups_t) (rs : list Row) :
  lookup g d = Some rs -> lookup g (ensure_group k d) = Some rs.
Proof.
  intros H. unfold ensure_group. destruct (has_key k d); [exact H|].
  now rewrite lookup_app, H.
Qed.

Lemma group_step_keeps (st : GroupState) (x r : Row) (g : str) :
  (exists rs, lookup g (st_groups st) = Some rs /\ In r rs) ->
  exists rs, lookup g (st_groups (group_step st x)) = Some rs /\ In r rs.
Proof.
  intros [rs [Hl Hr]]. unfold group_step.
  destruct (is_marker_code (strip (code x))).
  - destruct (accepted_label _); simpl; [|eauto].
    exists rs. split; [now apply lookup_ensure_keeps | exact Hr].
  - simpl. rewrite lookup_append_at.
    rewrite (lookup_ensure_keeps _ _ _ _ Hl).
    destruct (Str.eqb g (st_current st)); simpl.
    + exists (rs ++ [x]). split; [reflexivity|]. apply in_or_app. now left.
    + eauto.
Qed.

Lemma fold_group_step_keeps (l : list Row) (st : GroupState) (r : Row)
      (g : str) :
  (exists rs, lookup g (st_groups st) = Some rs /\ In r rs) ->
  exists rs,
    lookup g (st_groups (fold_left group_step l st)) = Some rs /\ In r rs.
Proof.
  revert st; induction l as [|x l IH]; intros st H; simpl; [exact H|].
  apply IH. now apply group_step_keeps.
Qed.

Lemma group_step_places (st : GroupState) (r : Row) :
  is_marker_code (strip (code r)) = false ->
  exists rs,
    lookup (st_current st) (st_groups (group_step st r)) = Some rs /\
    In r rs.
Proof.
  intros Hd. unfold group_step. rewrite Hd. simpl.
  rewrite lookup_append_at, str_eqb_refl.
  destruct (has_key_lookup _ _ (has_key_ensure (st_current st) (st_groups st)))
    as [rs ->].
  simpl. exists (rs ++ [r]). split; [reflexivity|].
  apply in_or_app. right. now left.
Qed.

Lemma fold_current_unchanged (b : list Row) (st : GroupState) :
  (forall x, In x b ->
             is_marker_code (strip (code x)) = true ->
             accepted_label
               (group_name_of (strip (code x)) (strip (name x))) = false) ->
  st_current (fold_left group_step b st) = st_current st.
Proof.
  revert st; induction b as [|x b IH]; intros st H; simpl; [reflexivity|].
  rewrite IH by (intros y Hy; apply H; now right).
  unfold group_step.
  destruct (is_marker_code (strip (code x))) eqn:Em; [|reflexivity].
  now rewrite (H x (or_introl eq_refl) Em).
Qed.

Lemma lookup_group_dfs (g : str) (d : groups_t) (rs : list Row) :
  lookup g d = Some rs -> rs <> [] -> lookup g (group_dfs_of d) = Some rs.
Proof.
  unfold group_dfs_of. intros H Hne.
  induction d as [|[k v] d IH]; simpl in *; [discriminate|].
  destruct (Str.eqb g k) eqn:E.
  - injection H as ->. destruct rs; [congruence|]. simpl. now rewrite E.
  - destruct v; simpl; [now apply IH|]. rewrite E. now apply IH.
Qed.

(** A data row goes to the group of the nearest marker row above it
    whose label was accepted, whatever rejected markers and data rows
    stand in between, and to 未分类 when no accepted marker stands above
    it; later rows never take it out of that group. *)
Theorem data_row_joins_latest_group
        (pre between post : list Row) (r : Row) (g : str) (a : Analysis) :
  (pre = [] /\ g = s_unclassified) \/
  (exists above m,
      pre = above ++ [m] /\
      is_marker_code (strip (code m)) = true /\
      group_name_of (strip (code m)) (strip (name m)) = g /\
      accepted_label g = true) ->
  (forall x, In x between ->
             is_marker_code (strip (code x)) = true ->
             accepted_label
               (group_name_of (strip (code x)) (strip (name x))) = false) ->
  is_marker_code (strip (code r)) = false ->
  analyze_stock_list (pre ++ between ++ r :: post) = Some a ->
  exists rs, lookup g (groups a) = Some rs /\ In r rs.
Proof.
  intros Hpre Hb Hr Ha.
  assert (Hcur : st_current (fold_left group_step (pre ++ between) init_state)
                 = g).
  { rewrite fold_left_app, fold_current_unchanged by exact Hb.
    destruct Hpre as [[-> ->] | [above [m [-> [Hm [Hg Hacc]]]]]];
      [reflexivity|].
    rewrite fold_left_app. simpl. unfold group_step.
    rewrite Hm, Hg, Hacc. reflexivity. }
  assert (Hin : exists rs,
             lookup g (st_groups (group_rows (pre ++ between ++ r :: post)))
             = Some rs /\ In r rs).
  { unfold group_rows.
    rewrite app_assoc, fold_left_app. simpl fold_left at 1.
    apply fold_group_step_keeps. rewrite <- Hcur.
    now apply group_step_places. }
  destruct Hin as [rs [Hl Hi]].
  unfold analyze_stock_list in Ha.
  destruct (pre ++ between ++ r :: post) as [|r0 df0]; [discriminate|].
  injection Ha as <-. cbn [groups].
  exists rs. split; [|exact Hi].
  apply lookup_group_dfs; [exact Hl|]. intros ->. exact Hi.
Qed.

Lemma data_row_joins_latest_group_witness :
  exists rs,
    lookup (lit "GroupB") (groups two_group_analysis) = Some rs /\
    In (mkRow 4 (lit "000001") (lit "AAA") 12 7) rs.
Proof.
  apply (data_row_joins_latest_group
           [ blank_row 0 (lit "GroupA") [];
             mkRow 1 (lit "000001") (lit "AAA") 10 5;
             mkRow 2 (lit "000002") (lit "BBB") 11 (-3)%float;
             blank_row 3 (lit "GroupB") [] ]
           [] [] (mkRow 4 (lit "000001") (lit "AAA") 12 7) (lit "GroupB")
           two_group_analysis).
  - right.
    exists [ blank_row 0 (lit "GroupA") [];
             mkRow 1 (lit "000001") (lit "AAA") 10 5;
             mkRow 2 (lit "000002") (lit "BBB") 11 (-3)%float ],
           (blank_row 3 (lit "GroupB") []).
    repeat split.
  - intros x [].
  - reflexivity.
  - reflexivity.
Defined.

End Placement.

(* ================================================================= *)
(** ** [analyze_stock_list]: edge cases and the cross-reference *)

Section AnalysisEdges.

Lemma members_nil_group_dfs (g : groups_t) :
  members g = [] -> group_dfs_of g = [].
Proof.
  unfold members, group_dfs_of.
  induction g as [|[k rs] g IH]; simpl; [reflexivity|].
  intros H. apply app_eq_nil in H as [-> H]. simpl. auto.
Qed.

Lemma marker_not_index (r : Row) :
  is_marker_code (strip (code r)) = true -> not_index r = true.
Proof.
  intros Hm. unfold not_index, is_index.
  destruct (startswith s_99 (code r)) eqn:E; [|reflexivity].
  apply index_code_is_data in E. congruence.
Qed.

Lemma filter_all {A} (p : A -> bool) (l : list A) :
  (forall x, In x l -> p x = true) -> filter p l = l.
Proof.
  induction l as [|h l IH]; simpl; [reflexivity|]. intros H.
  rewrite (H h (or_introl eq_refl)). f_equal. apply IH. auto.
Qed.

Lemma filter_none {A} (p : A -> bool) (l : list A) :
  (forall x, In x l -> p x = false) -> filter p l = [].
Proof.
  induction l as [|h l IH]; simpl; [reflexivity|]. intros H.
  rewrite (H h (or_introl eq_refl)). apply IH. auto.
Qed.

(** A frame without any data row has no group, no index, no duplicate
    and no listing, and its marker rows themselves, one per code, are
    returned as the master set. *)
Theorem markers_only_frame (df : list Row) (a : Analysis) :
  (forall r, In r df -> is_marker_code (strip (code r)) = true) ->
  analyze_stock_list df = Some a ->
  groups a = [] /\ index_df a = [] /\ duplicates a = [] /\
  listings a = [] /\ stock_df a = drop_duplicates df.
Proof.
  intros Hm. unfold analyze_stock_list.
  destruct df as [|r0 df0]; [discriminate|].
  intros H; injection H as <-.
  cbn [groups index_df duplicates listings stock_df].
  assert (E : group_dfs_of (st_groups (group_rows (r0 :: df0))) = []).
  { apply members_nil_group_dfs.
    destruct (members (st_groups (group_rows (r0 :: df0)))) as [|x t] eqn:Em;
      [reflexivity|].
    assert (Hx : In x (members (st_groups (group_rows (r0 :: df0)))))
      by (rewrite Em; now left).
    apply group_rows_members in Hx as [Hin Hd].
    rewrite (Hm x Hin) in Hd. discriminate. }
  rewrite E. cbn [all_stocks_of].
  repeat split.
  - apply filter_none. intros r Hr.
    apply Hm, marker_not_index in Hr. unfold not_index in Hr.
    now apply negb_true_iff in Hr.
  - rewrite filter_all; [reflexivity|].
    intros r Hr. now apply marker_not_index, Hm.
Qed.

Lemma markers_only_frame_witness :
  groups markers_only_analysis = [] /\
  index_df markers_only_analysis = [] /\
  duplicates markers_only_analysis = [] /\
  listings markers_only_analysis = [] /\
  stock_df markers_only_analysis = drop_duplicates markers_only_df.
Proof.
  apply (markers_only_frame markers_only_df markers_only_analysis).
  - intros r [<- | [<- | [<- | []]]]; reflexivity.
  - reflexivity.
Defined.

Lemma count_label_app (c : str) (l1 l2 : list str) :
  count_label c (l1 ++ l2) = count_label c l1 + count_label c l2.
Proof. unfold count_label. now rewrite filter_app, length_app. Qed.

Lemma count_label_codes (c g : str) (l : list Row) :
  count_label c (map fst (map (fun r => (code r, g)) l))
  = length (filter (fun r => Str.eqb c (code r)) l).
Proof.
  unfold count_label. induction l as [|r l IH]; simpl; [reflexivity|].
  destruct (Str.eqb c (code r)); simpl; now rewrite IH.
Qed.

Lemma count_all_codes (gd : groups_t) (c : str) :
  count_label c (map fst (all_codes_of gd))
  = length (filter (fun r => Str.eqb c (code r))
                   (filter not_index (members gd))).
Proof.
  unfold all_codes_of, members.
  induction gd as [|[g rs] gd IH]; simpl; [reflexivity|].
  rewrite map_app, count_label_app, count_label_codes, IH.
  now rewrite !filter_app, length_app.
Qed.

Lemma labels_length (c : str) (ac : list (str * str)) :
  length (map snd (filter (fun cg => Str.eqb c (fst cg)) ac))
  = count_label c (map fst ac).
Proof.
  unfold count_label. rewrite length_map.
  induction ac as [|[k g] ac IH]; simpl; [reflexivity|].
  destruct (Str.eqb c k); simpl; now rewrite IH.
Qed.

Lemma all_codes_labels (gd : groups_t) (c g : str) :
  In (c, g) (all_codes_of gd) -> In g (map fst gd).
Proof.
  unfold all_codes_of. rewrite in_flat_map.
  intros [[k rs] [Hk Hin]]. simpl in Hin.
  apply in_map_iff in Hin as [r [E _]]. injection E as _ <-.
  apply in_map_iff. now exists (k, rs).
Qed.

(** A code is a key of [duplicates] exactly when two or more stock rows
    of the groups carry it; its entry then has one label per such row,
    each the label of a group. *)
Theorem duplicates_count_rows (df : list Row) (a : Analysis) (c : str) :
  analyze_stock_list df = Some a ->
  (has_key c (duplicates a) = true <->
   2 <= length (filter (fun r => Str.eqb c (code r))
                       (filter not_index (members (groups a))))) /\
  (has_key c (duplicates a) = true ->
   exists labels,
     lookup c (duplicates a) = Some labels /\
     length labels
     = length (filter (fun r => Str.eqb c (code r))
                      (filter not_index (members (groups a)))) /\
     forall g, In g labels -> In g (map fst (groups a))).
Proof.
  unfold analyze_stock_list. destruct df as [|r0 df0]; [discriminate|].
  intros H; injection H as <-. cbn [groups duplicates].
  set (gd := group_dfs_of (st_groups (group_rows (r0 :: df0)))).
  split.
  - rewrite duplicates_key_iff. now rewrite count_all_codes.
  - intros Hk. rewrite (duplicates_labels _ _ Hk).
    eexists. split; [reflexivity|]. split.
    + now rewrite labels_length, count_all_codes.
    + intros g Hg. apply in_map_iff in Hg as [[c' g'] [E Hg]].
      simpl in E. subst g'. apply filter_In in Hg as [Hg _].
      exact (all_codes_labels _ _ _ Hg).
Qed.

Lemma duplicates_count_rows_witness :
  exists labels,
    lookup (lit "000001") (duplicates two_group_analysis) = Some labels /\
    length labels
    = length (filter (fun r => Str.eqb (lit "000001") (code r))
                     (filter not_index (members (groups two_group_analysis)))) /\
    forall g, In g labels -> In g (map fst (groups two_group_analysis)).
Proof.
  apply (proj2 (duplicates_count_rows two_group_df two_group_analysis
                  (lit "000001") eq_refl)).
  reflexivity.
Defined.

End AnalysisEdges.

Section CrossReference.

Lemma keys_fold_append (l : list (str * str)) (d : list (str * list str)) :
  map fst
    (fold_left
       (fun d cg =>
          if has_key (fst cg) d then append_at (fst cg) (snd cg) d else d)
       l d)
  = map fst d.
Proof.
  revert d; induction l as [|[k g] l IH]; intros d; simpl; [reflexivity|].
  rewrite IH. destruct (has_key k d); [apply keys_append_at | reflexivity].
Qed.

Lemma NoDup_keys_filter {V} (p : str * V -> bool) (d : list (str * V)) :
  NoDup (map fst d) -> NoDup (map fst (filter p d)).
Proof.
  induction d as [|[k v] d IH]; simpl; [auto|].
  intros H. inversion H as [|? ? Hk Hd]; subst.
  destruct (p (k, v)); simpl; [|now apply IH].
  constructor; [|now apply IH].
  intros Hin. apply Hk. apply in_map_iff in Hin as [[k' v'] [E Hin]].
  apply filter_In in Hin as [Hin _]. apply in_map_iff. now exists (k', v').
Qed.

(** No code is a key of [duplicates] twice, and every key has its row
    in the master set, so the report finds a name for each of them. *)
Theorem duplicate_keys_in_master_set (df : list Row) (a : Analysis) :
  analyze_stock_list df = Some a ->
  NoDup (map fst (duplicates a)) /\
  forall c,
    has_key c (duplicates a) = true ->
    exists r, In r (stock_df a) /\ code r = c /\ not_index r = true.
Proof.
  unfold analyze_stock_list. destruct df as [|r0 df0]; [discriminate|].
  intros H; injection H as <-. cbn [stock_df duplicates].
  set (df := r0 :: df0).
  set (gd := group_dfs_of (st_groups (group_rows df))).
  split.
  - unfold duplicates_of. rewrite keys_fold_append, map_map. simpl.
    apply NoDup_keys_filter. apply counter_fold_NoDup. constructor.
  - intros c Hk.
    apply duplicates_key_counted, all_codes_In in Hk as [x [Hx [Hn Hc]]].
    assert (Hne : gd <> []).
    { intros E. rewrite E in Hx. exact Hx. }
    destruct (drop_dup_from_covers
                [] (filter not_index (all_stocks_of gd df)) x)
      as [r [Hr Hrc]].
    + apply filter_In. split; [|exact Hn].
      now rewrite all_stocks_members.
    + simpl. tauto.
    + exists r. split; [exact Hr|]. split; [congruence|].
      now rewrite (not_index_same_code _ _ Hrc).
Qed.

Lemma duplicate_keys_in_master_set_witness :
  exists r,
    In r (stock_df two_group_analysis) /\ code r = lit "000001" /\
    not_index r = true.
Proof.
  apply (proj2 (duplicate_keys_in_master_set two_group_df two_group_analysis
                  eq_refl)).
  reflexivity.
Defined.

Lemma insert_sorted_perm (x : Row) (l : list Row) :
  Permutation (insert_sorted x l) (x :: l).
Proof.
  induction l as [|h l IH]; simpl; [reflexivity|].
  destruct (before x h); [reflexivity|].
  rewrite IH. apply perm_swap.
Qed.

Lemma sort_values_perm (l : list Row) : Permutation (sort_values l) l.
Proof.
  unfold sort_values. induction l as [|h l IH]; simpl; [reflexivity|].
  rewrite insert_sorted_perm. now constructor.
Qed.

Lemma filter_nil_existsb {A} (p : A -> bool) (l : list A) :
  filter p l = [] <-> existsb p l = false.
Proof.
  induction l as [|h l IH]; simpl; [tauto|].
  destruct (p h); simpl; [split; discriminate | exact IH].
Qed.

(** The listings are those of the groups that hold at least one stock,
    in the order of the groups; each lists the stocks of its group,
    every row once, none added and none lost by the sorting. *)
Theorem listings_are_group_stocks (df : list Row) (a : Analysis) :
  analyze_stock_list df = Some a ->
  map fst (listings a)
  = map fst (filter (fun g => existsb not_index (snd g)) (groups a)) /\
  forall g l,
    In (g, l) (listings a) ->
    l <> [] /\
    exists rs, In (g, rs) (groups a) /\ Permutation l (filter not_index rs).
Proof.
  unfold analyze_stock_list. destruct df as [|r0 df0]; [discriminate|].
  intros H; injection H as <-. cbn [groups listings].
  generalize (group_dfs_of (st_groups (group_rows (r0 :: df0)))).
  intros gd. split.
  - induction gd as [|[k rs] gd IH]; [reflexivity|].
    change (listings_of ((k, rs) :: gd))
      with (match filter not_index rs with
            | [] => []
            | x :: t => [(k, sort_values (x :: t))]
            end ++ listings_of gd).
    change (filter (fun g => existsb not_index (snd g)) ((k, rs) :: gd))
      with (if existsb not_index rs
            then (k, rs) :: filter (fun g => existsb not_index (snd g)) gd
            else filter (fun g => existsb not_index (snd g)) gd).
    rewrite map_app, IH.
    destruct (filter not_index rs) as [|x t] eqn:E.
    + apply filter_nil_existsb in E. now rewrite E.
    + assert (Ex : existsb not_index rs = true).
      { destruct (existsb not_index rs) eqn:Ex; [reflexivity|].
        apply filter_nil_existsb in Ex. congruence. }
      now rewrite Ex.
  - intros g l Hin. unfold listings_of in Hin.
    apply in_flat_map in Hin as [[k rs] [Hk Hl]]. simpl in Hl.
    destruct (filter not_index rs) as [|x t] eqn:E; [destruct Hl|].
    destruct Hl as [Hl | []]. injection Hl as <- <-.
    split.
    + intros El. change (sort_values (x :: t) = []) in El.
      pose proof (sort_values_perm (x :: t)) as P. rewrite El in P.
      apply Permutation_nil in P. discriminate.
    + exists rs. split; [exact Hk|]. rewrite E.
      exact (sort_values_perm (x :: t)).
Qed.

Lemma listings_are_group_stocks_witness :
  [mkRow 4 (lit "000001") (lit "AAA") 12 7] <> [] /\
  exists rs,
    In (lit "GroupB", rs) (groups two_group_analysis) /\
    Permutation [mkRow 4 (lit "000001") (lit "AAA") 12 7]
                (filter not_index rs).
Proof.
  apply (proj2 (listings_are_group_stocks two_group_df two_group_analysis
                  eq_refl)
               (lit "GroupB") [mkRow 4 (lit "000001") (lit "AAA") 12 7]).
  simpl. auto.
Defined.

(** The two slices have five rows each, or all the rows when the master
    set has fewer; with five stocks or fewer both slices show every
    stock, the second in reverse order. *)
Theorem slices_sizes (df : list Row) (a : Analysis) :
  analyze_stock_list df = Some a ->
  length (top5 a) = Nat.min 5 (length (stock_df a)) /\
  length (bottom5 a) = Nat.min 5 (length (stock_df a)) /\
  (length (stock_df a) <= 5 ->
   top5 a = stock_df a /\ bottom5 a = rev (stock_df a)).
Proof.
  intros H. destruct (slices_of_master_set df a H) as [-> ->].
  generalize (stock_df a). intros m. unfold tail_n. split; [|split].
  - apply length_firstn.
  - rewrite length_rev, length_skipn. lia.
  - intros Hle. split.
    + now apply firstn_all2.
    + replace (length m - 5) with 0 by lia. reflexivity.
Qed.

Lemma slices_sizes_witness :
  top5 two_group_analysis = stock_df two_group_analysis /\
  bottom5 two_group_analysis = rev (stock_df two_group_analysis).
Proof.
  apply (proj2 (proj2 (slices_sizes two_group_df two_group_analysis eq_refl))).
  simpl. lia.
Defined.

End CrossReference.

(* ================================================================= *)
(** ** The order of a group listing *)

Section ListingOrder.

Lemma SFcompare_swap (f1 f2 : SpecFloat.spec_float) :
  SpecFloat.SFcompare f2 f1 = option_map CompOpp (SpecFloat.SFcompare f1 f2).
Proof.
  destruct f1 as [s1| s1| |s1 m1 e1], f2 as [s2| s2| |s2 m2 e2]; simpl;
    try reflexivity;
    try (destruct s1; reflexivity);
    try (destruct s2; reflexivity);
    try (destruct s1, s2; reflexivity).
  pose proof (Pos.compare_cont_antisym m1 m2 Eq) as A. simpl in A.
  destruct s1, s2; simpl; try reflexivity;
    rewrite (Z.compare_antisym e1 e2);
    destruct (e1 ?= e2)%Z; simpl; try reflexivity;
    rewrite <- A; now destruct (Pos.compare_cont Eq m1 m2).
Qed.

Lemma not_nan_compare (x y : float) :
  is_nan x = false -> is_nan y = false ->
  SpecFloat.SFcompare (Prim2SF x) (Prim2SF y) <> None.
Proof.
  unfold is_nan. rewrite !negb_false_iff, !FloatAxioms.eqb_spec.
  unfold SpecFloat.SFeqb. intros Hx Hy.
  destruct (Prim2SF x) as [s1| s1| |s1 m1 e1], (Prim2SF y) as [s2| s2| |s2 m2 e2];
    simpl in *; try discriminate.
Qed.

(** Of two rows one may stand before the other. *)
Lemma before_total (a b : Row) : before a b = false -> before b a = true.
Proof.
  unfold before.
  destruct (is_nan (change b)) eqn:Nb; [discriminate|].
  destruct (is_nan (change a)) eqn:Na; [reflexivity|].
  rewrite !FloatAxioms.leb_spec. unfold SpecFloat.SFleb.
  pose proof (not_nan_compare _ _ Nb Na) as Hc.
  rewrite (SFcompare_swap (Prim2SF (change b)) (Prim2SF (change a))).
  destruct (SpecFloat.SFcompare (Prim2SF (change b)) (Prim2SF (change a)))
    as [[| |]|]; simpl; congruence.
Qed.

Lemma insert_sorted_HdRel (h x : Row) (l : list Row) :
  before h x = true ->
  HdRel (fun a b => before a b = true) h l ->
  HdRel (fun a b => before a b = true) h (insert_sorted x l).
Proof.
  intros Hx Hl. destruct l as [|y l]; simpl; [now constructor|].
  destruct (before x y); constructor; [exact Hx|].
  now inversion Hl.
Qed.

Lemma insert_sorted_Sorted (x : Row) (l : list Row) :
  Sorted (fun a b => before a b = true) l ->
  Sorted (fun a b => before a b = true) (insert_sorted x l).
Proof.
  induction l as [|h l IH]; simpl; intros Hs.
  - constructor; constructor.
  - destruct (before x h) eqn:E.
    + constructor; [exact Hs | now constructor].
    + inversion Hs as [|? ? Hs' Hh]; subst.
      constructor; [now apply IH|].
      apply insert_sorted_HdRel; [now apply before_total | exact Hh].
Qed.

Lemma sort_values_Sorted (l : list Row) :
  Sorted (fun a b => before a b = true) (sort_values l).
Proof.
  unfold sort_values. induction l as [|h l IH]; simpl.
  - constructor.
  - now apply insert_sorted_Sorted.
Qed.

Lemma Sorted_weaken {A} (R R' : A -> A -> Prop) :
  (forall u v, R u v -> R' u v) ->
  forall l, Sorted R l -> Sorted R' l.
Proof.
  intros Himp l Hs.
  induction Hs as [|h l' Hs' IH Hh]; constructor; auto.
  destruct Hh; constructor. now apply Himp.
Qed.

(** Every group listing runs from the largest 涨幅% down: each row is
    followed by a row whose value is not larger, and the rows without a
    numeric value come last. *)
Theorem listings_descending (df : list Row) (a : Analysis) (g : str)
        (l : list Row) :
  analyze_stock_list df = Some a ->
  In (g, l) (listings a) ->
  Sorted
    (fun x y =>
       is_nan (change y) = true \/
       (is_nan (change x) = false /\
        PrimFloat.leb (change y) (change x) = true))
    l.
Proof.
  unfold analyze_stock_list. destruct df as [|r0 df0]; [discriminate|].
  intros H; injection H as <-. cbn [listings]. intros Hin.
  unfold listings_of in Hin.
  apply in_flat_map in Hin as [[k rs] [_ Hl]]. simpl in Hl.
  destruct (filter not_index rs) as [|x t]; [destruct Hl|].
  destruct Hl as [Hl | []]. injection Hl as _ <-.
  assert (Himp : forall u v, before u v = true ->
                   is_nan (change v) = true \/
                   (is_nan (change u) = false /\
                    PrimFloat.leb (change v) (change u) = true)).
  { intros u v. unfold before.
    destruct (is_nan (change v)); [auto|].
    destruct (is_nan (change u)); [discriminate | auto]. }
  exact (Sorted_weaken _ _ Himp _ (sort_values_Sorted (x :: t))).
Qed.

Lemma listings_descending_witness :
  Sorted
    (fun x y =>
       is_nan (change y) = true \/
       (is_nan (change x) = false /\
        PrimFloat.leb (change y) (change x) = true))
    [ mkRow 1 (lit "000001") (lit "AAA") 10 5;
      mkRow 2 (lit "000002") (lit "BBB") 11 (-3)%float ].
Proof.
  apply (listings_descending two_group_df two_group_analysis (lit "GroupA")
           _ eq_refl).
  simpl. auto.
Defined.

End ListingOrder.

(* ================================================================= *)
(** ** The index set, the text frame and undefined changes *)

Section MoreEdges.

Lemma filter_perm {A} (p : A -> bool) (l l' : list A) :
  Permutation l l' -> Permutation (filter p l) (filter p l').
Proof.
  induction 1 as [|x l l' H IH|x y l|l l' l'' H1 IH1 H2 IH2]; simpl.
  - constructor.
  - destruct (p x); [now constructor | exact IH].
  - destruct (p x), (p y); try reflexivity. apply perm_swap.
  - now transitivity (filter p l').
Qed.

Lemma filter_filter_imp {A} (p q : A -> bool) (l : list A) :
  (forall x, p x = true -> q x = true) ->
  filter p (filter q l) = filter p l.
Proof.
  intros H. induction l as [|h l IH]; simpl; [reflexivity|].
  destruct (q h) eqn:Q; simpl.
  - now rewrite IH.
  - destruct (p h) eqn:P; [|exact IH]. apply H in P. congruence.
Qed.

(** The index set is not deduplicated: it holds every row of the frame
    whose code starts with 99, as many times as the frame lists it. *)
Theorem index_set_keeps_every_index_row (df : list Row) (a : Analysis) :
  analyze_stock_list df = Some a ->
  Permutation (index_df a) (filter is_index df).
Proof.
  intros Ha.
  assert (Hdata : forall x, is_index x = true ->
                    negb (is_marker_code (strip (code x))) = true).
  { intros x Hx. unfold is_index in Hx.
    now rewrite (index_code_is_data _ Hx). }
  unfold analyze_stock_list in Ha. destruct df as [|r0 df0]; [discriminate|].
  injection Ha as <-. cbn [index_df].
  set (df := r0 :: df0).
  destruct (group_dfs_of (st_groups (group_rows df))) as [|g0 gd] eqn:E.
  - reflexivity.
  - rewrite all_stocks_members by discriminate.
    rewrite <- E, members_group_dfs.
    rewrite <- (filter_filter_imp is_index _ df Hdata).
    apply filter_perm. unfold group_rows.
    rewrite fold_members_perm. simpl members. now rewrite app_nil_r.
Qed.

Lemma index_set_keeps_every_index_row_witness :
  Permutation (index_df index_twice_analysis)
              [ mkRow 1 (lit "990001") (lit "IDX") 3000 1;
                mkRow 3 (lit "990001") (lit "IDX") 3000 1 ].
Proof.
  exact (index_set_keeps_every_index_row index_twice_df index_twice_analysis
           eq_refl).
Defined.

(** The frame the text reading of an .xls or .xlsx file returns has the
    rows [read_csv] gave, read from the header row on, and labels
    without whitespace around them. *)
Theorem xls_text_frame (suffix : str) (f : File) (l0 : str)
        (rest : list str) (df : DataFrame) :
  suffix = s_xls \/ suffix = s_xlsx ->
  f_exists f = true ->
  gbk_readlines f = Returned (l0 :: rest) ->
  read_csv f Tab Gbk (header_index (l0 :: rest)) true = Returned df ->
  exists out,
    fst (fst (read_tdx_export suffix f)) = Some out /\
    rows out = rows df /\
    length (columns out) = length (columns df) /\
    forall label, In label (columns out) -> strip label = label.
Proof.
  intros Hs He Hl Hr.
  assert (E : fst (fst (read_tdx_export suffix f)) = Some (strip_columns df)).
  { unfold read_tdx_export, read_xls_text. rewrite He, Hl, Hr. simpl.
    destruct Hs as [-> | ->]; reflexivity. }
  exists (strip_columns df). split; [exact E|].
  unfold strip_columns. simpl. split; [reflexivity|].
  split; [apply length_map|].
  intros label Hin. apply in_map_iff in Hin as [c [<- _]].
  apply strip_idempotent.
Qed.

Lemma xls_text_frame_witness :
  exists out,
    fst (fst (read_tdx_export s_xls text_xls_file)) = Some out /\
    rows out = rows kline_frame /\
    length (columns out) = length (columns kline_frame) /\
    forall label, In label (columns out) -> strip label = label.
Proof.
  exact (xls_text_frame s_xls text_xls_file pingan_line
           [s_time ++ lit " close"; lit "2024 10.5"] kline_frame
           (or_introl eq_refl) eq_refl eq_refl eq_refl).
Defined.

Lemma is_nan_spec (x : float) :
  is_nan x = true <-> Prim2SF x = SpecFloat.S754_nan.
Proof.
  unfold is_nan. rewrite negb_true_iff, FloatAxioms.eqb_spec.
  unfold SpecFloat.SFeqb.
  destruct (Prim2SF x) as [s| s| |s m e]; simpl.
  - split; discriminate.
  - destruct s; split; discriminate.
  - split; reflexivity.
  - rewrite Z.compare_refl, Pos.compare_cont_refl.
    destruct s; split; discriminate.
Qed.

Lemma eqb_zero_spec (x : float) :
  PrimFloat.eqb x 0 = true -> exists s, Prim2SF x = SpecFloat.S754_zero s.
Proof.
  rewrite FloatAxioms.eqb_spec. unfold SpecFloat.SFeqb.
  change (Prim2SF 0) with (SpecFloat.S754_zero false).
  destruct (Prim2SF x) as [s| s| |s m e]; simpl.
  - eauto.
  - destruct s; discriminate.
  - discriminate.
  - destruct s; discriminate.
Qed.

(** With two records or more, a first close that is zero or not a
    number, or a last close that is not a number, still gives a printed
    change, and that change is never a finite number: it is an infinity
    or NaN. *)
Theorem total_change_not_finite (close : list float) :
  2 <= length close ->
  PrimFloat.eqb (nth 0 close nan) 0 = true \/
  is_nan (nth 0 close nan) = true \/
  is_nan (last close nan) = true ->
  exists v,
    total_change close = Some v /\
    (Prim2SF v = SpecFloat.S754_nan \/
     exists s, Prim2SF v = SpecFloat.S754_infinity s).
Proof.
  intros Hlen Hcase. unfold total_change.
  destruct (Nat.ltb_spec 1 (length close)) as [_ | H]; [|lia].
  eexists. split; [reflexivity|].
  rewrite FloatAxioms.mul_spec, FloatAxioms.div_spec, FloatAxioms.sub_spec.
  change (Prim2SF 100)
    with (SpecFloat.S754_finite false 7036874417766400 (-46)).
  destruct Hcase as [Hz | [Hn | Hn]].
  - apply eqb_zero_spec in Hz as [s ->].
    destruct (Prim2SF (last close nan)) as [s1| s1| |s1 m1 e1];
      try (left; reflexivity); try (right; eexists; reflexivity).
    destruct s1, s; left; reflexivity.
  - apply is_nan_spec in Hn. rewrite Hn.
    left. now destruct (Prim2SF (last close nan)).
  - apply is_nan_spec in Hn. rewrite Hn. left.
    now destruct (Prim2SF (nth 0 close nan)).
Qed.

Lemma total_change_not_finite_witness :
  exists v,
    total_change [0; 1]%float = Some v /\
    (Prim2SF v = SpecFloat.S754_nan \/
     exists s, Prim2SF v = SpecFloat.S754_infinity s).
Proof.
  apply (total_change_not_finite [0; 1]%float).
  - simpl. lia.
  - left. reflexivity.
Defined.

End MoreEdges.
